(** * Verification of the Vega loader's query-templating core

    Source: [src/public/vega_view/vega_loader.js] ([createVegaLoader]).

    The loader rewrites an Elasticsearch request document by resolving the
    magic keys [%context_query%], [%timefilter%], [%autointerval%] and the
    two dashboard-context clause markers.  This file embeds the closure's
    functions as Rocq functions over a JSON-like value type and proves the
    properties of the specification about them.

    Modelling decisions
    - JavaScript values are the inductive [value]; a mapping is the list of
      its entries in [Object.keys] order (no key occurs twice), a sequence is
      a list.
    - Numbers are exact rationals [Q]: every finite double is a rational and
      the comparisons of [roundInterval] against its integer thresholds are
      exact on them; rounding of [+], [*] and [/] is not modelled, nor are
      NaN and the infinities (JSON has no literal for them).  What is stated
      about the value of a sum, a product or a quotient is stated for safe
      integers, where the code does not round or rounds to the same side
      of every threshold ([shift_exact], [interval_exact]).
    - In-place mutation becomes explicit state passing: a function that
      mutates its argument returns the argument's new content.
    - The closure variable [_timeBounds] is the state of a small state and
      error monad [M]; the answers of the collaborators at the time of a
      call ([timefilter.getBounds()], [dashboardContext()]) are read from a
      [World]; a [throw] is an [Err] that keeps the state of [_timeBounds]. *)

From Stdlib Require Import QArith Qround Lqa Bool Lia.
From stdpp Require Import base list strings.

Open Scope string_scope.
Open Scope list_scope.

#[local] Set Warnings "-register-all".


(** ** Values *)

Inductive value : Type :=
| JUndefined
| JNull
| JBool (b : bool)
| JNum (n : Q)
| JStr (s : string)
| JArr (items : list value)
| JObj (props : list (string * value)).

(** The entries of a mapping, in enumeration order. *)
Definition jobject : Type := list (string * value).

(** A stronger induction principle: the hypotheses for [JArr] and [JObj]
    speak about every element and every property value. *)
Section ValueInd.
Variable P : value -> Prop.
Hypothesis Hundef : P JUndefined.
Hypothesis Hnull : P JNull.
Hypothesis Hbool : forall b, P (JBool b).
Hypothesis Hnum : forall n, P (JNum n).
Hypothesis Hstr : forall s, P (JStr s).
Hypothesis Harr : forall items, Forall P items -> P (JArr items).
Hypothesis Hobj : forall props, Forall (fun kv => P (snd kv)) props -> P (JObj props).

Fixpoint value_ind' (v : value) : P v :=
  match v with
  | JUndefined => Hundef
  | JNull => Hnull
  | JBool b => Hbool b
  | JNum n => Hnum n
  | JStr s => Hstr s
  | JArr items =>
      Harr items
        ((fix go (l : list value) : Forall P l :=
            match l with
            | [] => List.Forall_nil P
            | x :: l' => List.Forall_cons P x l' (value_ind' x) (go l')
            end) items)
  | JObj props =>
      Hobj props
        ((fix go (l : list (string * value)) : Forall (fun kv => P (snd kv)) l :=
            match l with
            | [] => List.Forall_nil _
            | kv :: l' => List.Forall_cons _ kv l' (value_ind' (snd kv)) (go l')
            end) props)
  end.
End ValueInd.

(** JavaScript's [ToBoolean]. *)
Definition truthy (v : value) : bool :=
  match v with
  | JUndefined | JNull => false
  | JBool b => b
  | JNum n => negb (Qeq_bool n 0)
  | JStr s => negb (String.eqb s "")
  | JArr _ | JObj _ => true
  end.

(** [typeof v]. *)
Definition typeof (v : value) : string :=
  match v with
  | JUndefined => "undefined"
  | JNull | JArr _ | JObj _ => "object"
  | JBool _ => "boolean"
  | JNum _ => "number"
  | JStr _ => "string"
  end.

(** [Array.isArray(v)]. *)
Definition isArray (v : value) : bool :=
  match v with JArr _ => true | _ => false end.

(** [a || b]. *)
Definition js_or (a b : value) : value := if truthy a then a else b.

(** ** Mappings: property read, assignment and [delete] *)

Module Obj.

(** [o[k]] on a mapping: [undefined] when the key is absent. *)
Fixpoint lookup (k : string) (o : jobject) : value :=
  match o with
  | [] => JUndefined
  | (k', v) :: o' => if String.eqb k k' then v else lookup k o'
  end.

(** [k in o]. *)
Fixpoint has (k : string) (o : jobject) : bool :=
  match o with
  | [] => false
  | (k', _) :: o' => String.eqb k k' || has k o'
  end.

(** [o[k] = v]: an existing key keeps its place, a new one goes last. *)
Fixpoint assign (k : string) (v : value) (o : jobject) : jobject :=
  match o with
  | [] => [(k, v)]
  | (k', v') :: o' =>
      if String.eqb k k' then (k', v) :: o' else (k', v') :: assign k v o'
  end.

(** [delete o[k]]. *)
Fixpoint delete (k : string) (o : jobject) : jobject :=
  match o with
  | [] => []
  | (k', v') :: o' =>
      if String.eqb k k' then delete k o' else (k', v') :: delete k o'
  end.

(** [Object.keys(o)]. *)
Definition keys (o : jobject) : list string := map fst o.

End Obj.

(** The own properties a property read can see: the keys the loader reads
    ([bool], [must], [query], [shift], the magic keys, ...) exist on
    mappings only; on a truthy primitive or on an array such a read gives
    [undefined]. *)
Definition props_of (v : value) : jobject :=
  match v with JObj o => o | _ => [] end.

(** [v[k]] for a [v] that is neither [null] nor [undefined]. *)
Definition get (v : value) (k : string) : value := Obj.lookup k (props_of v).

(** ** Collaborators, loader state and the monad *)

(** [{min, max}] in epoch milliseconds. *)
Record Bounds : Type := mkBounds { b_min : Q; b_max : Q }.

(** What the collaborators answer while one synchronous call runs. *)
Record World : Type := mkWorld {
  timefilter_getBounds : Bounds;   (* timefilter.getBounds(), after valueOf() *)
  dashboardContext : value         (* dashboardContext() *)
}.

(** The errors of the loader; [TypeError] is the runtime's own (a property
    read on [null] or [undefined], a call of something that is no
    function, an assignment to a property of a primitive in strict mode). *)
Inductive error : Type :=
| ConflictingQuery
| InvalidContextQueryField
| InvalidShift
| UnknownUnit
| InvalidAutoInterval
| InvalidTimefilterValue
| UnexpectedUrlObject
| ExternalUrlsDisabled
| TypeError.

Inductive result (A : Type) : Type :=
| Ok (a : A)
| Err (e : error).
Arguments Ok {A} a.
Arguments Err {A} e.

(** The closure variable [_timeBounds]. *)
Definition Cache : Type := option Bounds.

Definition M (A : Type) : Type := World -> Cache -> Cache * result A.

Definition ret {A} (a : A) : M A := fun _ c => (c, Ok a).
Definition throw {A} (e : error) : M A := fun _ c => (c, Err e).
Definition bind {A B} (m : M A) (k : A -> M B) : M B :=
  fun w c =>
    match m w c with
    | (c', Ok a) => k a w c'
    | (c', Err e) => (c', Err e)
    end.
Definition ask_dashboardContext : M value := fun w c => (c, Ok (dashboardContext w)).

Declare Scope loader_scope.
Delimit Scope loader_scope with loader.
Notation "x <- m ;; k" := (bind m (fun x => k))
  (at level 100, m at next level, right associativity) : loader_scope.
Open Scope loader_scope.

(** [v[k]] in general: a [TypeError] on [null] and [undefined]. *)
Definition getprop (v : value) (k : string) : M value :=
  match v with
  | JUndefined | JNull => throw TypeError
  | _ => ret (get v k)
  end.

(** ** The magic keys *)

Definition SIMPLE_QUERY : string := "%context_query%".
Definition TIMEFILTER : string := "%timefilter%".
Definition AUTOINTERVAL : string := "%autointerval%".
Definition MUST_CLAUSE : string := "%dashboard_context-must_clause%".
Definition MUST_NOT_CLAUSE : string := "%dashboard_context-must_not_clause%".

(** ** [roundInterval] (source lines 175-210)

    The [switch (true)] takes the first case whose comparison holds.  The
    last comparison is the strict [interval < 3628800000], which on the
    totally ordered rationals is the negation of [3628800000 <= interval]. *)

Definition roundInterval (interval : Q) : string :=
  if Qle_bool interval 500 then "100ms"
  else if Qle_bool interval 5000 then "1s"
  else if Qle_bool interval 7500 then "5s"
  else if Qle_bool interval 15000 then "10s"
  else if Qle_bool interval 45000 then "30s"
  else if Qle_bool interval 180000 then "1m"
  else if Qle_bool interval 450000 then "5m"
  else if Qle_bool interval 1200000 then "10m"
  else if Qle_bool interval 2700000 then "30m"
  else if Qle_bool interval 7200000 then "1h"
  else if Qle_bool interval 21600000 then "3h"
  else if Qle_bool interval 86400000 then "12h"
  else if Qle_bool interval 604800000 then "24h"
  else if Qle_bool interval 1814400000 then "1w"
  else if negb (Qle_bool 3628800000 interval) then "30d"
  else "1y".

(** ** [getTimeRange] (source lines 212-222) *)

Definition getTimeRange : M Bounds :=
  fun w c =>
    match c with
    | Some b => (c, Ok b)
    | None =>
        let bounds := timefilter_getBounds w in
        let b := mkBounds (b_min bounds) (b_max bounds) in
        (Some b, Ok b)
    end.

(** ** [getTimeBound] (source lines 131-169) *)

Inductive bound_type : Type := Min | Max.

(** [bounds[type]]. *)
Definition bound_of (bounds : Bounds) (type : bound_type) : Q :=
  match type with Min => b_min bounds | Max => b_max bounds end.

(** The [switch (opts.unit || 'd')] of the source: the multiplier, or
    [None] for the [default:] branch. *)
Definition unit_multiplier (unit : value) : option Q :=
  match unit with
  | JStr u =>
      if String.eqb u "w" || String.eqb u "week" then Some (1000 * 60 * 60 * 24 * 7)%Q
      else if String.eqb u "d" || String.eqb u "day" then Some (1000 * 60 * 60 * 24)%Q
      else if String.eqb u "h" || String.eqb u "hour" then Some (1000 * 60 * 60)%Q
      else if String.eqb u "m" || String.eqb u "minute" then Some (1000 * 60)%Q
      else if String.eqb u "s" || String.eqb u "second" then Some 1000%Q
      else None
  | _ => None
  end.

(** [result += shift * multiplier] is exact here; the code rounds the
    product and the sum to doubles.  The two agree when [shift_exact]
    holds (see below), and the statements about the value of the result
    are made there. *)
Definition getTimeBound (opts : jobject) (type : bound_type) : M Q :=
  bounds <- getTimeRange ;;
  let result := bound_of bounds type in
  if truthy (Obj.lookup "shift" opts) then
    let shift := Obj.lookup "shift" opts in
    match shift with
    | JNum shift =>
        match unit_multiplier (js_or (Obj.lookup "unit" opts) (JStr "d")) with
        | Some multiplier => ret (result + shift * multiplier)%Q
        | None => throw UnknownUnit
        end
    | _ => throw InvalidShift
    end
  else ret result.

(** ** [createRangeFilter] (source lines 121-129)

    The function mutates [obj] and returns it: the model returns the final
    content of [obj], which is both what the caller's reference now holds
    and the returned value. *)

Definition createRangeFilter (obj : jobject) : M jobject :=
  gte <- getTimeBound obj Min ;;
  let obj := Obj.assign "gte" (JNum gte) obj in
  lte <- getTimeBound obj Max ;;
  let obj := Obj.assign "lte" (JNum lte) obj in
  let obj := Obj.assign "format" (JStr "epoch_millis") obj in
  let obj := Obj.delete TIMEFILTER obj in
  let obj := Obj.delete "shift" obj in
  let obj := Obj.delete "unit" obj in
  ret obj.

(** ** [injectQueryContextVars] (source lines 51-114) *)

(** [v === s] for a string constant [s]. *)
Definition strict_eq_str (v : value) (s : string) : bool :=
  match v with JStr t => String.eqb t s | _ => false end.

(** [item === MUST_CLAUSE || item === MUST_NOT_CLAUSE]. *)
Definition is_clause_marker (item : value) : bool :=
  strict_eq_str item MUST_CLAUSE || strict_eq_str item MUST_NOT_CLAUSE.

(** [item === MUST_CLAUSE ? 'must' : 'must_not']. *)
Definition ctxTag_of (item : value) : string :=
  if strict_eq_str item MUST_CLAUSE then "must" else "must_not".

(** [ctx && ctx.bool && ctx.bool[ctxTag]], as a condition. *)
Definition has_clause (ctx : value) (ctxTag : string) : bool :=
  truthy ctx && truthy (get ctx "bool") && truthy (get (get ctx "bool") ctxTag).

(** [obj.splice(pos, n, ...els)]. *)
Definition splice (obj : list value) (pos n : nat) (els : list value) : list value :=
  take pos obj ++ els ++ drop (pos + n) obj.

Section Loops.
(** The recursive call [injectQueryContextVars(x, isQuery)]: it mutates
    [x] in place, the model returns the new content of [x]. *)
Variable walk : value -> M value.
Variable isQuery : bool.

(** One pass through the body of the [for (pos = 0; pos < obj.length;)]
    loop (lines 56-74), on the array [obj] with the cursor at [pos]:
    the array and the cursor afterwards. *)
Definition cursor_step (obj : list value) (pos : nat) : M (list value * nat) :=
  let item := nth pos obj JUndefined in
  if isQuery && is_clause_marker item then
    let ctxTag := ctxTag_of item in
    ctx <- ask_dashboardContext ;;
    if has_clause ctx ctxTag then
      match get (get ctx "bool") ctxTag with
      | JArr els => ret (splice obj pos 1 els, pos + length els)%nat
      | fragment => ret (<[pos := fragment]> obj, S pos)
      end
    else ret (splice obj pos 1 [], pos)
  else
    item' <- walk item ;;
    ret (<[pos := item']> obj, S pos).

(** At most [n] iterations of the loop. *)
Fixpoint cursor_loop (n : nat) (obj : list value) (pos : nat) : M (list value * nat) :=
  match n with
  | O => ret (obj, pos)
  | S n' =>
      if (pos <? length obj)%nat then
        st <- cursor_step obj pos ;;
        cursor_loop n' (fst st) (snd st)
      else ret (obj, pos)
  end.

(** The same loop by structural recursion: the array is [done ++ rest]
    and the cursor is [length done]; everything from the cursor on is
    still as it was when the loop started. *)
Definition array_loop : list value -> list value -> M (list value) :=
  fix loop (done rest : list value) {struct rest} : M (list value) :=
    match rest with
    | [] => ret done
    | item :: rest' =>
        if isQuery && is_clause_marker item then
          let ctxTag := ctxTag_of item in
          ctx <- ask_dashboardContext ;;
          if has_clause ctx ctxTag then
            match get (get ctx "bool") ctxTag with
            | JArr els => loop (done ++ els) rest'
            | fragment => loop (done ++ [fragment]) rest'
            end
          else loop done rest'
        else
          item' <- walk item ;;
          loop (done ++ [item']) rest'
    end.

(** The body of the [for (const prop of Object.keys(obj))] loop (lines
    78-110) for the property [prop] with value [subObj] of the node
    [obj]: the value of [obj[prop]] afterwards.  The quotient of line 90 is exact
    here; the code rounds it to a double, which [roundInterval] puts in the
    same bucket when [interval_exact] holds (see below). *)
Definition walk_prop (obj : value) (prop : string) (subObj : value) : M value :=
  if negb (truthy subObj) || negb (String.eqb (typeof obj) "object") then ret subObj
  else if String.eqb prop "interval" && truthy (get subObj AUTOINTERVAL) then
    size <- match get subObj AUTOINTERVAL with
            | JBool true => ret 50%Q
            | JNum size => ret size
            | _ => throw InvalidAutoInterval
            end ;;
    bounds <- getTimeRange ;;
    ret (JStr (roundInterval ((b_max bounds - b_min bounds) / size)))
  else
    match get subObj TIMEFILTER with
    | JStr type =>
        if String.eqb type "min" then
          t <- getTimeBound (props_of subObj) Min ;; ret (JNum t)
        else if String.eqb type "max" then
          t <- getTimeBound (props_of subObj) Max ;; ret (JNum t)
        else throw InvalidTimefilterValue
    | JBool true =>
        range <- createRangeFilter (props_of subObj) ;; ret (JObj range)
    | JUndefined => walk subObj
    | _ => throw InvalidTimefilterValue
    end.

(** The loop over the properties: every iteration touches [obj[prop]]
    only, so the new mapping is built entry by entry. *)
Definition props_loop (obj : value) : jobject -> M jobject :=
  fix loop (props : jobject) {struct props} : M jobject :=
    match props with
    | [] => ret []
    | (prop, subObj) :: props' =>
        v <- walk_prop obj prop subObj ;;
        rest <- loop props' ;;
        ret ((prop, v) :: rest)
    end.
End Loops.

Fixpoint injectQueryContextVars (obj : value) (isQuery : bool) {struct obj} : M value :=
  match obj with
  | JArr items =>
      items' <- array_loop (fun item => injectQueryContextVars item isQuery) isQuery [] items ;;
      ret (JArr items')
  | JObj props =>
      props' <- props_loop (fun subObj => injectQueryContextVars subObj isQuery) obj props ;;
      ret (JObj props')
  | _ => ret obj
  end.

(** ** [queryEsData] (source lines 11-44) *)

(** What a successful [load] hands back: the promise of the search
    collaborator for a request, or of the default loader for a URL. *)
Inductive content : Type :=
| EsSearch (request : value)
| DefaultLoad (uri opts : value).

(** [o[k] = v] on a value: mappings take the property; a primitive throws
    in strict mode (the module is an ES module).  An array would take it
    too, which [JArr] cannot hold: such envelopes are outside the model. *)
Definition setprop (o : value) (k : string) (v : value) : M value :=
  match o with
  | JObj props => ret (JObj (Obj.assign k v props))
  | _ => throw TypeError
  end.

(** The content of [o] after the object held at [o[k]] was mutated in
    place to [v]: nothing changes when [o] has no property [k]. *)
Definition mutated_at (o : value) (k : string) (v : value) : value :=
  match o with
  | JObj props => if Obj.has k props then JObj (Obj.assign k v props) else o
  | _ => o
  end.

(** [field !== true && (typeof field !== 'string' || field.length === 0)]. *)
Definition invalid_field (field : value) : bool :=
  match field with
  | JBool true => false
  | JStr s => String.eqb s ""
  | _ => true
  end.

(** The key of a computed property [{[field]: ...}] for a string [field]. *)
Definition field_name (field : value) : string :=
  match field with JStr s => s | _ => "" end.

(** Limits of the model: an envelope or a [body] that is an array is not
    represented ([JArr] holds no named property; the model answers with a
    [TypeError] where the code would set the property and go on); and a
    throw keeps the cache but not the envelope, which the code has
    mutated by then.  The statements are about mapping envelopes, and
    where they speak of the state before a later throw they do so through
    the computation that is left to run. *)
Definition queryEsData (uri : value) : M content :=
  match uri with
  | JObj uri =>
      let body := js_or (Obj.lookup "body" uri) (JObj []) in
      let uri := Obj.assign "body" body uri in
      st <-
        (if truthy (Obj.lookup SIMPLE_QUERY uri) then
           if truthy (get body "query") then throw ConflictingQuery
           else
             let field := Obj.lookup SIMPLE_QUERY uri in
             if invalid_field field then throw InvalidContextQueryField
             else
               let uri := Obj.delete SIMPLE_QUERY uri in
               query <- ask_dashboardContext ;;
               body <- setprop body "query" query ;;
               if negb (match field with JBool true => true | _ => false end) then
                 bool <- getprop query "bool" ;;
                 must <- getprop bool "must" ;;
                 _ <- getprop must "push" ;;
                 range <- createRangeFilter [(TIMEFILTER, JBool true)] ;;
                 match must with
                 | JArr els =>
                     let filter := JObj [("range", JObj [(field_name field, JObj range)])] in
                     let bool := mutated_at bool "must" (JArr (els ++ [filter])) in
                     let query := mutated_at query "bool" bool in
                     ret (uri, mutated_at body "query" query)
                 | _ => throw TypeError
                 end
               else ret (uri, body)
         else
           query <- injectQueryContextVars (get body "query") true ;;
           ret (uri, mutated_at body "query" query)) ;;
      let uri := fst st in
      let body := snd st in
      aggs <- injectQueryContextVars (get body "aggs") false ;;
      let body := mutated_at body "aggs" aggs in
      ret (EsSearch (JObj (Obj.assign "body" body uri)))
  | _ => throw TypeError
  end.

(** ** [loader.load] (source lines 235-246) *)

Definition load (enableExternalUrls : bool) (uri opts : value) : M content :=
  if String.eqb (typeof uri) "object" then
    context <- getprop opts "context" ;;
    if strict_eq_str context "dataflow" then queryEsData uri
    else throw UnexpectedUrlObject
  else if negb enableExternalUrls then throw ExternalUrlsDisabled
  else ret (DefaultLoad uri opts).


(** ** Notions used by the statements *)

(** The bounds [getTimeRange] answers with: the cached ones when
    [_timeBounds] is set, the collaborator's otherwise. *)
Definition time_range (w : World) (c : Cache) : Bounds :=
  match c with
  | Some b => b
  | None => timefilter_getBounds w
  end.

(** The unit table of the specification, in milliseconds. *)
Definition unit_table : list (string * Q) :=
  [("w", 604800000%Q); ("week", 604800000%Q);
   ("d", 86400000%Q); ("day", 86400000%Q);
   ("h", 3600000%Q); ("hour", 3600000%Q);
   ("m", 60000%Q); ("minute", 60000%Q);
   ("s", 1000%Q); ("second", 1000%Q)].

(** [prop] is one of the magic keys the tree walker looks for. *)
Definition is_marker_key (prop : string) : bool :=
  String.eqb prop TIMEFILTER || String.eqb prop AUTOINTERVAL.

(** A document without placeholder markers: at no depth does a mapping
    have the key [%timefilter%] or [%autointerval%], nor a sequence one of
    the two clause markers as an element. *)
Fixpoint marker_free (v : value) : bool :=
  match v with
  | JArr items =>
      forallb (fun item => negb (is_clause_marker item) && marker_free item) items
  | JObj props =>
      forallb (fun kv => negb (is_marker_key (fst kv)) && marker_free (snd kv)) props
  | _ => true
  end.

(** The errors the tree walker and the functions under it raise. *)
Definition walker_error (e : error) : bool :=
  match e with
  | InvalidShift | UnknownUnit | InvalidAutoInterval | InvalidTimefilterValue => true
  | _ => false
  end.

(** The errors of [queryEsData]. *)
Definition query_error (e : error) : bool :=
  match e with
  | ConflictingQuery | InvalidContextQueryField | TypeError => true
  | _ => walker_error e
  end.

(** What every computation of the loader satisfies: it leaves
    [_timeBounds] alone or fills it with the time range in effect; it
    raises only errors of [allowed]; and its outcome depends on the world
    through the dashboard context and the time range in effect only. *)
Definition sound {A} (allowed : error -> bool) (m : M A) : Prop :=
  forall w c,
    (fst (m w c) = c \/ fst (m w c) = Some (time_range w c)) /\
    (forall e, snd (m w c) = Err e -> allowed e = true) /\
    (forall w' c',
       dashboardContext w = dashboardContext w' ->
       time_range w c = time_range w' c' ->
       snd (m w c) = snd (m w' c')).

(** The errors that can follow the two checks of the simple-query branch. *)
Definition late_error (e : error) : bool :=
  match e with
  | TypeError => true
  | _ => walker_error e
  end.

(** The last three lines of [queryEsData] (41-43), for the envelope [uri]
    and its [body] as they stand after the query part. *)
Definition resolve_aggs_and_search (uri : jobject) (body : value) : M content :=
  aggs <- injectQueryContextVars (get body "aggs") false ;;
  ret (EsSearch (JObj (Obj.assign "body" (mutated_at body "aggs" aggs) uri))).

(** The range filter [queryEsData] pushes for the time field [field]. *)
Definition range_filter (field : string) (bounds : Bounds) : value :=
  JObj [("range",
         JObj [(field,
                JObj [("gte", JNum (b_min bounds));
                      ("lte", JNum (b_max bounds));
                      ("format", JStr "epoch_millis")])])].

(** ** Further notions used by the statements *)

(** The length in milliseconds of the interval each name of
    [roundInterval] stands for. *)
Definition interval_millis (name : string) : Q :=
  if String.eqb name "100ms" then 100
  else if String.eqb name "1s" then 1000
  else if String.eqb name "5s" then 5000
  else if String.eqb name "10s" then 10000
  else if String.eqb name "30s" then 30000
  else if String.eqb name "1m" then 60000
  else if String.eqb name "5m" then 300000
  else if String.eqb name "10m" then 600000
  else if String.eqb name "30m" then 1800000
  else if String.eqb name "1h" then 3600000
  else if String.eqb name "3h" then 10800000
  else if String.eqb name "12h" then 43200000
  else if String.eqb name "24h" then 86400000
  else if String.eqb name "1w" then 604800000
  else if String.eqb name "30d" then 2592000000
  else if String.eqb name "1y" then 31536000000
  else 0.

(** A computation that never asks for the dashboard context: worlds with
    the same time range give the same run. *)
Definition context_free {A} (m : M A) : Prop :=
  forall w w' c,
    timefilter_getBounds w = timefilter_getBounds w' -> m w c = m w' c.

(** The elements of a sequence. *)
Definition elements (v : value) : list value :=
  match v with JArr items => items | _ => [] end.

(** [v] under the keys of [path], outermost first:
    [nest ["a"; "b"] v] is [{"a": {"b": v}}]. *)
Definition nest (path : list string) (v : value) : value :=
  fold_right (fun k inner => JObj [(k, inner)]) v path.

(** What takes the place of a clause marker: the elements of the matching
    [bool] field of the dashboard context when it is a sequence, the field
    itself when it is a single truthy fragment, nothing otherwise. *)
Definition clause_elements (ctx : value) (ctxTag : string) : list value :=
  match get (get ctx "bool") ctxTag with
  | JArr els => els
  | fragment => if truthy fragment then [fragment] else []
  end.

(** ** Where the model's arithmetic is the code's

    The model adds, multiplies and divides exactly; the code rounds to a
    double.  The two agree on safe integers: a product or a sum of
    integers whose result is again below [2^53] in absolute value is exact
    in double arithmetic, and the quotient of an integer below [2^53] by an
    integer count falls on the same side of every threshold of
    [roundInterval] as its rounding.  Statements about the value of a sum,
    a product or a quotient are made on this domain. *)

(** [Number.isSafeInteger(n)]. *)
Definition isSafeInteger (n : Q) : bool :=
  Qeq_bool n (inject_Z (Qfloor n)) && (Z.abs (Qfloor n) <? 2 ^ 53)%Z.

(** [bound + shift * multiplier] (line 165) is computed without rounding. *)
Definition shift_exact (bound shift multiplier : Q) : bool :=
  isSafeInteger bound && isSafeInteger shift &&
  isSafeInteger (shift * multiplier) && isSafeInteger (bound + shift * multiplier).

(** [(bounds.max - bounds.min) / size] (line 90) is rounded to the same
    side of every threshold: integer bounds with an exact difference and an
    integer [size >= 1]. *)
Definition interval_exact (bounds : Bounds) (size : Q) : bool :=
  isSafeInteger (b_min bounds) && isSafeInteger (b_max bounds) &&
  isSafeInteger (b_max bounds - b_min bounds) &&
  isSafeInteger size && Qle_bool 1 size.

(** ** Pieces of [queryEsData] named for the statements *)

(** Lines 29-36 of [queryEsData] for the time field [field], as a
    computation on the document [query] that [body.query] holds: the new
    content of that document. *)
Definition push_time_filter (field : string) (query : value) : M value :=
  bool <- getprop query "bool" ;;
  must <- getprop bool "must" ;;
  _ <- getprop must "push" ;;
  range <- createRangeFilter [(TIMEFILTER, JBool true)] ;;
  match must with
  | JArr els =>
      let filter := JObj [("range", JObj [(field, JObj range)])] in
      ret (mutated_at query "bool" (mutated_at bool "must" (JArr (els ++ [filter]))))
  | _ => throw TypeError
  end.

(** ** Documents that one walk resolves completely *)

(** The clauses spliced in for [ctxTag] hold no placeholder marker. *)
Definition clauses_marker_free (ctx : value) (ctxTag : string) : bool :=
  forallb (fun clause => negb (is_clause_marker clause) && marker_free clause)
    (clause_elements ctx ctxTag).

(** What is left of a [{"%timefilter%": true, ...}] object besides the
    marker holds no placeholder marker ([createRangeFilter] does not walk
    it). *)
Definition range_marker_free (subObj : value) : bool :=
  forallb (fun kv => String.eqb (fst kv) TIMEFILTER ||
                     (negb (is_marker_key (fst kv)) && marker_free (snd kv)))
    (props_of subObj).

(** Every placeholder marker of [v] sits where the walker resolves it: a
    magic key only in the value of a property (never in the root, in an
    element of a sequence, or below a [{"%timefilter%": true}] object), a
    [%timefilter%] with a value the walker accepts, a clause marker only in
    a sequence walked with [isQuery = true], and nothing in the clauses the
    dashboard context [ctx] supplies for it. *)
Fixpoint settles (ctx : value) (isQuery : bool) (v : value) : bool :=
  match v with
  | JArr items =>
      forallb (fun item =>
                 if is_clause_marker item
                 then isQuery && clauses_marker_free ctx (ctxTag_of item)
                 else settles ctx isQuery item) items
  | JObj props =>
      forallb (fun kv =>
                 negb (is_marker_key (fst kv)) &&
                 (let subObj := snd kv in
                  if negb (truthy subObj) then true
                  else if String.eqb (fst kv) "interval" && truthy (get subObj AUTOINTERVAL)
                  then true
                  else match get subObj TIMEFILTER with
                       | JStr type => String.eqb type "min" || String.eqb type "max"
                       | JBool true => range_marker_free subObj
                       | JUndefined => settles ctx isQuery subObj
                       | _ => false
                       end)) props
  | _ => true
  end.


(** * Properties *)

(** ** Mappings *)

Module ObjFacts.

Lemma lookup_assign_eq k v o : Obj.lookup k (Obj.assign k v o) = v.
Proof.
  induction o as [|[k' v'] o IH]; simpl.
  - now rewrite String.eqb_refl.
  - destruct (String.eqb k k') eqn:E; simpl; rewrite E; auto.
Qed.

Lemma lookup_assign_ne k k' v o :
  k <> k' -> Obj.lookup k (Obj.assign k' v o) = Obj.lookup k o.
Proof.
  intros Hne. induction o as [|[k0 v0] o IH]; simpl.
  - apply String.eqb_neq in Hne. now rewrite Hne.
  - destruct (String.eqb k' k0) eqn:E; simpl.
    + apply String.eqb_eq in E. subst k0.
      apply String.eqb_neq in Hne. now rewrite Hne.
    + now rewrite IH.
Qed.

Lemma lookup_delete_ne k k' o :
  k <> k' -> Obj.lookup k (Obj.delete k' o) = Obj.lookup k o.
Proof.
  intros Hne. induction o as [|[k0 v0] o IH]; simpl; [reflexivity|].
  destruct (String.eqb k' k0) eqn:E; simpl.
  - apply String.eqb_eq in E. subst k0.
    apply String.eqb_neq in Hne. now rewrite Hne.
  - now rewrite IH.
Qed.

Lemma has_delete_eq k o : Obj.has k (Obj.delete k o) = false.
Proof.
  induction o as [|[k0 v0] o IH]; simpl; [reflexivity|].
  destruct (String.eqb k k0) eqn:E; simpl; [assumption|].
  now rewrite E.
Qed.

Lemma has_delete_ne k k' o :
  k <> k' -> Obj.has k (Obj.delete k' o) = Obj.has k o.
Proof.
  intros Hne. induction o as [|[k0 v0] o IH]; simpl; [reflexivity|].
  destruct (String.eqb k' k0) eqn:E; simpl.
  - apply String.eqb_eq in E. subst k0.
    apply String.eqb_neq in Hne. now rewrite Hne.
  - now rewrite IH.
Qed.

Lemma has_delete_false k k' o :
  Obj.has k o = false -> Obj.has k (Obj.delete k' o) = false.
Proof.
  induction o as [|[k0 v0] o IH]; simpl; [reflexivity|].
  intros H. apply orb_false_iff in H as [H1 H2].
  destruct (String.eqb k' k0); simpl; auto.
  rewrite H1. auto.
Qed.

Lemma has_false_lookup k o : Obj.has k o = false -> Obj.lookup k o = JUndefined.
Proof.
  induction o as [|[k0 v0] o IH]; simpl; [reflexivity|].
  intros H. apply orb_false_iff in H as [H1 H2]. rewrite H1. auto.
Qed.

Lemma has_assign_eq k v o : Obj.has k (Obj.assign k v o) = true.
Proof.
  induction o as [|[k' v'] o IH]; simpl.
  - now rewrite String.eqb_refl.
  - destruct (String.eqb k k') eqn:E; simpl; rewrite E; auto.
Qed.

Lemma has_assign_ne k k' v o :
  k <> k' -> Obj.has k (Obj.assign k' v o) = Obj.has k o.
Proof.
  intros Hne. induction o as [|[k0 v0] o IH]; simpl.
  - apply String.eqb_neq in Hne. now rewrite Hne.
  - destruct (String.eqb k' k0) eqn:E; simpl.
    + reflexivity.
    + now rewrite IH.
Qed.

Lemma has_keys k o : Obj.has k o = true <-> In k (Obj.keys o).
Proof.
  induction o as [|[k0 v0] o IH]; simpl.
  - split; [discriminate | tauto].
  - rewrite orb_true_iff, IH, String.eqb_eq. intuition congruence.
Qed.

End ObjFacts.

(** ** The time-bounds cache *)

Lemma getTimeRange_eq w c :
  getTimeRange w c = (Some (time_range w c), Ok (time_range w c)).
Proof.
  unfold getTimeRange, time_range. destruct c as [b|]; [reflexivity|].
  now destruct (timefilter_getBounds w).
Qed.

Lemma time_range_filled w c : time_range w (Some (time_range w c)) = time_range w c.
Proof. reflexivity. Qed.
(** ** [roundInterval] *)

Lemma Qle_bool_false (x y : Q) : Qle_bool x y = false -> (y < x)%Q.
Proof.
  intros H. apply Qnot_le_lt. intros Hle.
  apply Qle_bool_iff in Hle. congruence.
Qed.

(** Reads the outcome of every comparison of [roundInterval] into the
    context. *)
Ltac round_cases :=
  repeat match goal with
    | |- context [Qle_bool ?a ?b] =>
        let E := fresh "E" in
        destruct (Qle_bool a b) eqn:E;
        [apply Qle_bool_iff in E | apply Qle_bool_false in E]; cbn [negb]
    end.

(** C3: on every non-negative number [roundInterval] returns the bucket of
    the ordered table of upper bounds: each bound is inclusive, except the
    one of ["30d"], which is strict, and ["1y"] is the fallback. *)
Theorem roundInterval_table (ms : Q) :
  (0 <= ms)%Q ->
  ((ms <= 500)%Q -> roundInterval ms = "100ms") /\
  ((500 < ms)%Q /\ (ms <= 5000)%Q -> roundInterval ms = "1s") /\
  ((5000 < ms)%Q /\ (ms <= 7500)%Q -> roundInterval ms = "5s") /\
  ((7500 < ms)%Q /\ (ms <= 15000)%Q -> roundInterval ms = "10s") /\
  ((15000 < ms)%Q /\ (ms <= 45000)%Q -> roundInterval ms = "30s") /\
  ((45000 < ms)%Q /\ (ms <= 180000)%Q -> roundInterval ms = "1m") /\
  ((180000 < ms)%Q /\ (ms <= 450000)%Q -> roundInterval ms = "5m") /\
  ((450000 < ms)%Q /\ (ms <= 1200000)%Q -> roundInterval ms = "10m") /\
  ((1200000 < ms)%Q /\ (ms <= 2700000)%Q -> roundInterval ms = "30m") /\
  ((2700000 < ms)%Q /\ (ms <= 7200000)%Q -> roundInterval ms = "1h") /\
  ((7200000 < ms)%Q /\ (ms <= 21600000)%Q -> roundInterval ms = "3h") /\
  ((21600000 < ms)%Q /\ (ms <= 86400000)%Q -> roundInterval ms = "12h") /\
  ((86400000 < ms)%Q /\ (ms <= 604800000)%Q -> roundInterval ms = "24h") /\
  ((604800000 < ms)%Q /\ (ms <= 1814400000)%Q -> roundInterval ms = "1w") /\
  ((1814400000 < ms)%Q /\ (ms < 3628800000)%Q -> roundInterval ms = "30d") /\
  ((3628800000 <= ms)%Q -> roundInterval ms = "1y").
Proof.
  intros _. unfold roundInterval.
  round_cases; repeat split; intros; try reflexivity; exfalso; lra.
Qed.

Lemma roundInterval_table_witness :
  (0 <= 160)%Q /\ roundInterval 160 = "100ms" /\ roundInterval 3628800000 = "1y".
Proof.
  assert (H0 : (0 <= 160)%Q) by (unfold Qle; simpl; lia).
  assert (H1 : (0 <= 3628800000)%Q) by (unfold Qle; simpl; lia).
  split; [exact H0|]. split.
  - apply (proj1 (roundInterval_table 160 H0)). unfold Qle; simpl; lia.
  - apply (roundInterval_table 3628800000 H1). unfold Qle; simpl; lia.
Defined.

(** ** [getTimeBound] *)

(** [getTimeBound] without the monad: the cache is filled, and the outcome
    is decided by [opts.shift] and [opts.unit]. *)
Lemma getTimeBound_eq opts type w c :
  getTimeBound opts type w c =
    (Some (time_range w c),
     if truthy (Obj.lookup "shift" opts) then
       match Obj.lookup "shift" opts with
       | JNum shift =>
           match unit_multiplier (js_or (Obj.lookup "unit" opts) (JStr "d")) with
           | Some multiplier => Ok (bound_of (time_range w c) type + shift * multiplier)%Q
           | None => Err UnknownUnit
           end
       | _ => Err InvalidShift
       end
     else Ok (bound_of (time_range w c) type)).
Proof.
  unfold getTimeBound, bind. rewrite getTimeRange_eq.
  destruct (truthy (Obj.lookup "shift" opts)); [|reflexivity].
  destruct (Obj.lookup "shift" opts); try reflexivity.
  destruct (unit_multiplier _); reflexivity.
Qed.

Lemma getTimeBound_cache opts type w c :
  fst (getTimeBound opts type w c) = Some (time_range w c).
Proof. now rewrite getTimeBound_eq. Qed.

(** The [switch] on the unit is the unit table. *)
Lemma unit_multiplier_table_1 s ms :
  In (s, ms) unit_table -> unit_multiplier (JStr s) = Some ms.
Proof.
  unfold unit_table. simpl.
  intros H; repeat destruct H as [H|H]; try contradiction;
    inversion H; subst; reflexivity.
Qed.

Lemma unit_multiplier_table_2 u ms :
  unit_multiplier u = Some ms -> exists s, u = JStr s /\ In (s, ms) unit_table.
Proof.
  destruct u as [| | | |s| |]; try discriminate.
  unfold unit_multiplier. intros H. exists s. split; [reflexivity|].
  repeat match type of H with
    | (if ?a || ?b then _ else _) = _ =>
        let Ea := fresh "E" in let Eb := fresh "E" in
        destruct a eqn:Ea; [apply String.eqb_eq in Ea|];
        [|destruct b eqn:Eb; [apply String.eqb_eq in Eb|]]; cbn [orb] in H
    end;
    try discriminate; inversion H; subst; unfold unit_table; simpl; tauto.
Qed.

(** C7, amended: when [opts.shift] is truthy, a shift that is no number
    fails with [InvalidShift]; a falsy unit stands for ["d"], a truthy unit
    outside the table fails with [UnknownUnit], and a unit of the table
    gives [bounds[which] + shift * unit_ms].  The value of the result is
    stated where line 165 computes it without rounding: bound, shift,
    product and sum are safe integers. *)
Theorem getTimeBound_truthy_shift (opts : jobject) (type : bound_type) (w : World) (c : Cache) :
  truthy (Obj.lookup "shift" opts) = true ->
  let unit := js_or (Obj.lookup "unit" opts) (JStr "d") in
  ((forall n, Obj.lookup "shift" opts <> JNum n) ->
   snd (getTimeBound opts type w c) = Err InvalidShift) /\
  (truthy (Obj.lookup "unit" opts) = false -> unit = JStr "d") /\
  (forall shift, Obj.lookup "shift" opts = JNum shift ->
     ((forall s ms, In (s, ms) unit_table -> unit <> JStr s) ->
      snd (getTimeBound opts type w c) = Err UnknownUnit) /\
     (forall s ms, In (s, ms) unit_table -> unit = JStr s ->
      shift_exact (bound_of (time_range w c) type) shift ms = true ->
      snd (getTimeBound opts type w c) =
        Ok (bound_of (time_range w c) type + shift * ms)%Q)).
Proof.
  intros Hshift unit. rewrite getTimeBound_eq, Hshift. cbn [snd].
  split; [|split].
  - intros Hnum. destruct (Obj.lookup "shift" opts); try reflexivity.
    now destruct (Hnum n).
  - intros Hunit. unfold unit, js_or. now rewrite Hunit.
  - intros shift ->. fold unit. split.
    + intros Hout. destruct (unit_multiplier unit) as [ms|] eqn:E; [|reflexivity].
      apply unit_multiplier_table_2 in E as (s & Hs & Hin).
      now destruct (Hout s ms Hin).
    + intros s ms Hin -> _. now rewrite (unit_multiplier_table_1 s ms Hin).
Qed.

Lemma getTimeBound_truthy_shift_witness :
  snd (getTimeBound [(TIMEFILTER, JStr "min"); ("shift", JNum (-1)); ("unit", JStr "h")] Min
         (mkWorld (mkBounds 1000 9000) JNull) None)
  = Ok (1000 + (-1) * 3600000)%Q.
Proof.
  apply (getTimeBound_truthy_shift
           [(TIMEFILTER, JStr "min"); ("shift", JNum (-1)); ("unit", JStr "h")] Min
           (mkWorld (mkBounds 1000 9000) JNull) None eq_refl)
    with (s := "h").
  - reflexivity.
  - unfold unit_table. simpl. tauto.
  - reflexivity.
  - vm_compute. reflexivity.
Defined.

(** C7 as stated fails, twice.  A shift that is present but falsy (here
    the empty string, which is no number) is not rejected: the bound comes
    back unshifted, whatever the unit.  And a unit that is present but
    falsy (here the empty string, which is not in the table) is not
    rejected either: it stands for ["d"], and a shift of [1] moves the
    bound by one day. *)
Lemma getTimeBound_present_shift_counterexample :
  let opts := [("shift", JStr ""); ("unit", JStr "fortnight")] in
  let opts' := [("shift", JNum 1); ("unit", JStr "")] in
  let w := mkWorld (mkBounds 1000 9000) JNull in
  (Obj.has "shift" opts = true /\
   (forall n, Obj.lookup "shift" opts <> JNum n) /\
   getTimeBound opts Min w None = (Some (mkBounds 1000 9000), Ok 1000%Q) /\
   snd (getTimeBound opts Min w None) <> Err InvalidShift /\
   snd (getTimeBound opts Min w None) <> Err UnknownUnit) /\
  (Obj.has "unit" opts' = true /\
   (forall s ms, In (s, ms) unit_table -> Obj.lookup "unit" opts' <> JStr s) /\
   shift_exact 1000 1 86400000 = true /\
   getTimeBound opts' Min w None =
     (Some (mkBounds 1000 9000), Ok (1000 + 1 * 86400000)%Q) /\
   snd (getTimeBound opts' Min w None) <> Err UnknownUnit).
Proof.
  cbv zeta. split.
  - repeat split; try reflexivity; try discriminate.
  - split; [reflexivity|]. split.
    + intros s ms Hin. unfold unit_table in Hin. simpl in Hin.
      repeat destruct Hin as [Hin|Hin]; try contradiction;
        inversion Hin; subst; discriminate.
    + repeat split; try reflexivity; try discriminate.
Qed.

(** ** [createRangeFilter] *)

(** Writing [gte] does not change what [getTimeBound] reads. *)
Lemma getTimeBound_assign_gte obj v type w c :
  snd (getTimeBound (Obj.assign "gte" v obj) type w c) = snd (getTimeBound obj type w c).
Proof.
  rewrite !getTimeBound_eq. cbn [snd].
  now rewrite !ObjFacts.lookup_assign_ne by discriminate.
Qed.

Lemma getTimeBound_time_range_filled opts type w c :
  snd (getTimeBound opts type w (Some (time_range w c))) = snd (getTimeBound opts type w c).
Proof. now rewrite !getTimeBound_eq. Qed.

(** The outcome of [getTimeBound] does not depend on which bound is asked
    for, only its value does. *)
Lemma getTimeBound_Min_Max opts w c gte :
  snd (getTimeBound opts Min w c) = Ok gte ->
  exists lte, snd (getTimeBound opts Max w c) = Ok lte.
Proof.
  rewrite !getTimeBound_eq. cbn [snd].
  destruct (truthy _); [|eauto].
  destruct (Obj.lookup "shift" opts); try discriminate.
  destruct (unit_multiplier _); [eauto | discriminate].
Qed.

(** C5: [createRangeFilter] returns the object it was given, mutated: when
    it returns, [gte] and [lte] are the resolved [min] and [max] bounds,
    [format] is ["epoch_millis"], the keys [%timefilter%], [shift] and
    [unit] are gone and every other property is untouched; without a
    [shift], and with [min <= max] in the time range, [gte <= lte].  It
    throws only what the time bound resolver throws. *)
Theorem createRangeFilter_spec (obj : jobject) (w : World) (c : Cache) :
  match snd (createRangeFilter obj w c) with
  | Ok r =>
      exists gte lte,
        snd (getTimeBound obj Min w c) = Ok gte /\
        snd (getTimeBound obj Max w c) = Ok lte /\
        Obj.lookup "gte" r = JNum gte /\
        Obj.lookup "lte" r = JNum lte /\
        Obj.lookup "format" r = JStr "epoch_millis" /\
        Obj.has TIMEFILTER r = false /\
        Obj.has "shift" r = false /\
        Obj.has "unit" r = false /\
        (forall k, ~ In k ["gte"; "lte"; "format"; TIMEFILTER; "shift"; "unit"] ->
                   Obj.lookup k r = Obj.lookup k obj) /\
        (Obj.has "shift" obj = false ->
         (b_min (time_range w c) <= b_max (time_range w c))%Q ->
         gte = b_min (time_range w c) /\ lte = b_max (time_range w c) /\ (gte <= lte)%Q)
  | Err e => snd (getTimeBound obj Min w c) = Err e
  end.
Proof.
  unfold createRangeFilter, bind.
  destruct (getTimeBound obj Min w c) as [c1 [gte|e]] eqn:E1; cbn [snd]; [|reflexivity].
  assert (Hc1 : c1 = Some (time_range w c))
    by (now rewrite <- (getTimeBound_cache obj Min w c), E1).
  assert (Hmin : snd (getTimeBound obj Min w c) = Ok gte) by now rewrite E1.
  destruct (getTimeBound_Min_Max _ _ _ _ Hmin) as [lte Hmax].
  subst c1.
  pose proof (getTimeBound_assign_gte obj (JNum gte) Max w (Some (time_range w c))) as E2.
  rewrite (getTimeBound_time_range_filled obj), Hmax in E2.
  destruct (getTimeBound (Obj.assign "gte" (JNum gte) obj) Max w _) as [c2 r2].
  cbn [snd] in E2. subst r2. cbn [snd ret].
  exists gte, lte.
  repeat match goal with |- _ /\ _ => split end; try reflexivity; try assumption.
  - rewrite !ObjFacts.lookup_delete_ne, !ObjFacts.lookup_assign_ne by discriminate.
    apply ObjFacts.lookup_assign_eq.
  - rewrite !ObjFacts.lookup_delete_ne, !ObjFacts.lookup_assign_ne by discriminate.
    apply ObjFacts.lookup_assign_eq.
  - rewrite !ObjFacts.lookup_delete_ne by discriminate.
    apply ObjFacts.lookup_assign_eq.
  - do 2 apply ObjFacts.has_delete_false. apply ObjFacts.has_delete_eq.
  - apply ObjFacts.has_delete_false. apply ObjFacts.has_delete_eq.
  - apply ObjFacts.has_delete_eq.
  - intros k Hk.
    rewrite !ObjFacts.lookup_delete_ne, !ObjFacts.lookup_assign_ne
      by (intros ->; apply Hk; simpl; auto 10).
    reflexivity.
  - intros Hshift Hle.
    rewrite getTimeBound_eq in Hmin. rewrite getTimeBound_eq in Hmax.
    rewrite (ObjFacts.has_false_lookup _ _ Hshift) in Hmin, Hmax.
    cbn in Hmin, Hmax. inversion Hmin; inversion Hmax; subst. auto.
Qed.

Lemma createRangeFilter_spec_witness :
  let obj := [(TIMEFILTER, JBool true); ("boost", JNum 2)] in
  let w := mkWorld (mkBounds 1000 9000) JNull in
  Obj.has "shift" obj = false /\
  (b_min (time_range w None) <= b_max (time_range w None))%Q /\
  exists r gte lte,
    snd (createRangeFilter obj w None) = Ok r /\
    Obj.lookup "gte" r = JNum gte /\ Obj.lookup "lte" r = JNum lte /\
    Obj.lookup "boost" r = JNum 2 /\ (gte <= lte)%Q.
Proof.
  intros obj w.
  assert (Hs : Obj.has "shift" obj = false) by reflexivity.
  assert (Hle : (b_min (time_range w None) <= b_max (time_range w None))%Q)
    by (unfold Qle; simpl; lia).
  split; [exact Hs|]. split; [exact Hle|].
  pose proof (createRangeFilter_spec obj w None) as H.
  destruct (snd (createRangeFilter obj w None)) as [r|e].
  - destruct H as (gte & lte & _ & _ & Hg & Hl & _ & _ & _ & _ & Hk & Hord).
    exists r, gte, lte. repeat split; try assumption.
    + rewrite Hk; [reflexivity|]. simpl. unfold TIMEFILTER.
      intros [E|[E|[E|[E|[E|[E|[]]]]]]]; discriminate E.
    + apply (Hord Hs Hle).
  - exfalso. vm_compute in H. discriminate H.
Defined.

(** ** The tree walker *)

Lemma injectQueryContextVars_arr items q :
  injectQueryContextVars (JArr items) q =
    (items' <- array_loop (fun item => injectQueryContextVars item q) q [] items ;;
     ret (JArr items')).
Proof. reflexivity. Qed.

Lemma injectQueryContextVars_obj props q :
  injectQueryContextVars (JObj props) q =
    (props' <- props_loop (fun subObj => injectQueryContextVars subObj q) (JObj props) props ;;
     ret (JObj props')).
Proof. reflexivity. Qed.

(** A marker-free value has none of the magic keys. *)
Lemma marker_free_get v k :
  marker_free v = true -> is_marker_key k = true -> get v k = JUndefined.
Proof.
  destruct v as [| | | | | |props]; try reflexivity.
  unfold get. cbn [props_of marker_free]. intros Hfree Hk.
  induction props as [|[k' v'] props IH]; [reflexivity|].
  cbn [forallb fst snd] in Hfree.
  apply andb_true_iff in Hfree as [Hhd Htl].
  apply andb_true_iff in Hhd as [Hkey _].
  cbn [Obj.lookup]. destruct (String.eqb k k') eqn:E.
  - apply String.eqb_eq in E. subst k'. rewrite Hk in Hkey. discriminate.
  - auto.
Qed.

Section MarkerFree.
Variable walk : value -> M value.
Variable isQuery : bool.

Lemma array_loop_marker_free rest :
  Forall (fun item => marker_free item = true ->
                      forall w c, walk item w c = (c, Ok item)) rest ->
  forallb (fun item => negb (is_clause_marker item) && marker_free item) rest = true ->
  forall done w c, array_loop walk isQuery done rest w c = (c, Ok (done ++ rest)).
Proof.
  induction 1 as [|item rest Hitem _ IH]; intros Hfree done w c.
  - cbn. now rewrite app_nil_r.
  - cbn [forallb] in Hfree.
    apply andb_true_iff in Hfree as [Hhd Htl].
    apply andb_true_iff in Hhd as [Hmark Hfree].
    apply negb_true_iff in Hmark.
    cbn [array_loop]. rewrite Hmark, andb_false_r.
    unfold bind. rewrite (Hitem Hfree), (IH Htl).
    now rewrite <- app_assoc.
Qed.

Lemma walk_prop_marker_free obj prop subObj :
  typeof obj = "object" ->
  (marker_free subObj = true -> forall w c, walk subObj w c = (c, Ok subObj)) ->
  marker_free subObj = true ->
  forall w c, walk_prop walk obj prop subObj w c = (c, Ok subObj).
Proof.
  intros Hobj Hwalk Hfree w c. unfold walk_prop. rewrite Hobj.
  rewrite String.eqb_refl. cbn [negb]. rewrite orb_false_r.
  destruct (truthy subObj); [|reflexivity]. cbn [negb].
  rewrite (marker_free_get subObj AUTOINTERVAL Hfree eq_refl).
  rewrite (marker_free_get subObj TIMEFILTER Hfree eq_refl).
  cbn [truthy]. rewrite andb_false_r. auto.
Qed.

Lemma props_loop_marker_free obj props :
  typeof obj = "object" ->
  Forall (fun kv => marker_free (snd kv) = true ->
                    forall w c, walk (snd kv) w c = (c, Ok (snd kv))) props ->
  forallb (fun kv => negb (is_marker_key (fst kv)) && marker_free (snd kv)) props = true ->
  forall w c, props_loop walk obj props w c = (c, Ok props).
Proof.
  intros Hobj. induction 1 as [|[prop subObj] props Hsub _ IH]; intros Hfree w c.
  - reflexivity.
  - cbn [forallb fst snd] in Hfree, Hsub.
    apply andb_true_iff in Hfree as [Hhd Htl].
    apply andb_true_iff in Hhd as [_ Hfree].
    cbn [props_loop]. unfold bind.
    rewrite (walk_prop_marker_free obj prop subObj Hobj Hsub Hfree).
    now rewrite (IH Htl).
Qed.
End MarkerFree.

Lemma injectQueryContextVars_marker_free (doc : value) :
  marker_free doc = true ->
  forall isQuery w c, injectQueryContextVars doc isQuery w c = (c, Ok doc).
Proof.
  induction doc as [| | | | |items IH|props IH] using value_ind';
    intros Hfree isQuery w c; try reflexivity.
  - rewrite injectQueryContextVars_arr. unfold bind.
    rewrite array_loop_marker_free; [reflexivity| |exact Hfree].
    eapply Forall_impl; [exact IH|]. cbv beta. auto.
  - rewrite injectQueryContextVars_obj. unfold bind.
    rewrite props_loop_marker_free; [reflexivity|reflexivity| |exact Hfree].
    eapply Forall_impl; [exact IH|]. cbv beta. auto.
Qed.

(** ** Every computation of the loader is [sound] *)

Section Sound.
Context {A B : Type}.
Variable allowed : error -> bool.

Lemma sound_ret (a : A) : sound allowed (ret a).
Proof. intros w c. cbn. repeat split; auto. discriminate. Qed.

Lemma sound_throw (e : error) : allowed e = true -> sound allowed (@throw A e).
Proof.
  intros He w c. cbn. repeat split; auto.
  intros e' [= <-]. exact He.
Qed.

Lemma time_range_after w c c1 :
  c1 = c \/ c1 = Some (time_range w c) -> time_range w c1 = time_range w c.
Proof. intros [->| ->]; reflexivity. Qed.

Lemma sound_bind (m : M A) (k : A -> M B) :
  sound allowed m -> (forall a, sound allowed (k a)) -> sound allowed (bind m k).
Proof.
  intros Hm Hk w c. unfold bind.
  destruct (Hm w c) as (Hc & He & Hw).
  destruct (m w c) as [c1 [a|e]] eqn:E; cbn [fst snd] in *.
  - pose proof (time_range_after _ _ _ Hc) as Htr.
    destruct (Hk a w c1) as (Hc1 & He1 & Hw1).
    split; [|split].
    + destruct Hc1 as [-> | ->]; [exact Hc|]. right. now rewrite Htr.
    + exact He1.
    + intros w' c' Hd Ht. specialize (Hw w' c' Hd Ht).
      destruct (Hm w' c') as (Hc' & _ & _).
      destruct (m w' c') as [c1' r']. cbn [fst snd] in *. subst r'.
      apply Hw1; [exact Hd|].
      rewrite Htr, (time_range_after _ _ _ Hc'). exact Ht.
  - split; [exact Hc|]. split; [intros e' [= <-]; now apply He|].
    intros w' c' Hd Ht. specialize (Hw w' c' Hd Ht).
    destruct (m w' c') as [c1' r']. cbn [snd] in *. now subst r'.
Qed.
End Sound.

Lemma sound_weaken {A} (allowed allowed' : error -> bool) (m : M A) :
  (forall e, allowed e = true -> allowed' e = true) ->
  sound allowed m -> sound allowed' m.
Proof.
  intros Hsub Hm w c. destruct (Hm w c) as (Hc & He & Hw).
  repeat split; auto.
Qed.

Lemma sound_getTimeRange allowed : sound allowed getTimeRange.
Proof.
  intros w c. rewrite getTimeRange_eq. cbn [fst snd].
  repeat split; auto; try discriminate.
  intros w' c' _ Ht. rewrite getTimeRange_eq. cbn [snd]. now rewrite Ht.
Qed.

Lemma sound_ask_dashboardContext allowed : sound allowed ask_dashboardContext.
Proof.
  intros w c. unfold ask_dashboardContext. cbn [fst snd].
  repeat split; auto; try discriminate.
  intros w' c' Hd _. now rewrite Hd.
Qed.

Lemma sound_getprop allowed v k :
  allowed TypeError = true -> sound allowed (getprop v k).
Proof.
  intros H. destruct v; cbn [getprop];
    first [apply sound_ret | now apply sound_throw].
Qed.

Lemma sound_setprop allowed o k v :
  allowed TypeError = true -> sound allowed (setprop o k v).
Proof.
  intros H. destruct o; cbn [setprop];
    first [apply sound_ret | now apply sound_throw].
Qed.

(** Splits a goal [sound _ m] along the structure of [m]. *)
Ltac sound_step :=
  match goal with
  | |- sound _ (bind _ _) => apply sound_bind; [|intros ?]
  | |- sound _ (ret _) => apply sound_ret
  | |- sound _ (throw _) => apply sound_throw; reflexivity
  | |- sound _ getTimeRange => apply sound_getTimeRange
  | |- sound _ ask_dashboardContext => apply sound_ask_dashboardContext
  | |- sound _ (getprop _ _) => apply sound_getprop; reflexivity
  | |- sound _ (setprop _ _ _) => apply sound_setprop; reflexivity
  | |- sound _ (if ?b then _ else _) => destruct b
  | |- sound _ (match ?v with _ => _ end) => destruct v
  | |- sound _ (let _ := _ in _) => cbv zeta
  end.

Lemma sound_getTimeBound opts type : sound walker_error (getTimeBound opts type).
Proof. unfold getTimeBound. repeat sound_step. Qed.

Lemma sound_createRangeFilter obj : sound walker_error (createRangeFilter obj).
Proof.
  unfold createRangeFilter.
  repeat first [apply sound_getTimeBound | sound_step].
Qed.

Section SoundLoops.
Variable walk : value -> M value.
Variable isQuery : bool.

Lemma sound_array_loop rest :
  Forall (fun item => sound walker_error (walk item)) rest ->
  forall done, sound walker_error (array_loop walk isQuery done rest).
Proof.
  induction 1 as [|item rest Hitem _ IH]; intros done; cbn [array_loop].
  - apply sound_ret.
  - repeat first [apply IH | exact Hitem | sound_step].
Qed.

Lemma sound_walk_prop obj prop subObj :
  sound walker_error (walk subObj) ->
  sound walker_error (walk_prop walk obj prop subObj).
Proof.
  intros Hsub. unfold walk_prop.
  repeat first [exact Hsub | apply sound_getTimeBound
               | apply sound_createRangeFilter | sound_step].
Qed.

Lemma sound_props_loop obj props :
  Forall (fun kv => sound walker_error (walk (snd kv))) props ->
  sound walker_error (props_loop walk obj props).
Proof.
  induction 1 as [|[prop subObj] props Hsub _ IH]; cbn [props_loop].
  - apply sound_ret.
  - repeat first [exact IH | now apply sound_walk_prop | sound_step].
Qed.
End SoundLoops.

Lemma sound_injectQueryContextVars obj isQuery :
  sound walker_error (injectQueryContextVars obj isQuery).
Proof.
  induction obj as [| | | | |items IH|props IH] using value_ind';
    try apply sound_ret.
  - rewrite injectQueryContextVars_arr.
    apply sound_bind; [now apply sound_array_loop | intros; apply sound_ret].
  - rewrite injectQueryContextVars_obj.
    apply sound_bind; [now apply sound_props_loop | intros; apply sound_ret].
Qed.

Lemma sound_queryEsData uri : sound query_error (queryEsData uri).
Proof.
  assert (Hw : forall A (m : M A), sound walker_error m -> sound query_error m).
  { intros A m. apply sound_weaken. intros e He. now destruct e. }
  unfold queryEsData.
  repeat first [apply Hw, sound_injectQueryContextVars
               | apply Hw, sound_createRangeFilter | sound_step].
Qed.

(** ** The time-bounds cache across calls *)



(** ** [%autointerval%] *)

Lemma get_defined_obj v k : get v k <> JUndefined -> exists o, v = JObj o.
Proof. destruct v; try (now intros []); eauto. Qed.

Lemma truthy_get_obj v k : truthy (get v k) = true -> exists o, v = JObj o.
Proof.
  intros H. apply (get_defined_obj v k). intros E. rewrite E in H. discriminate.
Qed.

(** The rule for the key [interval] (lines 82-92). *)
Lemma walk_prop_autointerval walk obj subObj w c :
  typeof obj = "object" ->
  truthy (get subObj AUTOINTERVAL) = true ->
  walk_prop walk obj "interval" subObj w c =
    match get subObj AUTOINTERVAL with
    | JBool true =>
        (Some (time_range w c),
         Ok (JStr (roundInterval ((b_max (time_range w c) - b_min (time_range w c)) / 50))))
    | JNum size =>
        (Some (time_range w c),
         Ok (JStr (roundInterval ((b_max (time_range w c) - b_min (time_range w c)) / size))))
    | _ => (c, Err InvalidAutoInterval)
    end.
Proof.
  intros Hobj Hm. unfold walk_prop.
  destruct (truthy_get_obj _ _ Hm) as [o ->].
  rewrite Hobj, Hm. cbn [truthy negb orb String.eqb Ascii.eqb Bool.eqb andb].
  unfold bind.
  destruct (get (JObj o) AUTOINTERVAL) as [| |[|]| | | |]; try reflexivity;
    cbn [ret]; now rewrite getTimeRange_eq.
Qed.

Lemma props_loop_autointerval walk obj :
  typeof obj = "object" ->
  (forall v, sound walker_error (walk v)) ->
  forall props w c c' r,
    truthy (get (Obj.lookup "interval" props) AUTOINTERVAL) = true ->
    props_loop walk obj props w c = (c', Ok r) ->
    exists count,
      (get (Obj.lookup "interval" props) AUTOINTERVAL = JBool true /\ count = 50%Q \/
       get (Obj.lookup "interval" props) AUTOINTERVAL = JNum count) /\
      Obj.lookup "interval" r =
        JStr (roundInterval ((b_max (time_range w c) - b_min (time_range w c)) / count)).
Proof.
  intros Hobj Hwalk props.
  induction props as [|[prop subObj] props IH]; intros w c c' r Hm Hrun.
  - discriminate Hm.
  - cbn [props_loop] in Hrun. unfold bind in Hrun.
    cbn [Obj.lookup] in Hm |- *.
    destruct (String.eqb "interval" prop) eqn:E.
    + apply String.eqb_eq in E. subst prop.
      rewrite (walk_prop_autointerval walk obj subObj w c Hobj Hm) in Hrun.
      destruct (get subObj AUTOINTERVAL) as [| |[|]|size| | |]; try discriminate Hrun.
      * exists 50%Q. split; [now left|].
        destruct (props_loop walk obj props w _) as [c2 [rest|e]]; [|discriminate].
        injection Hrun as _ <-. reflexivity.
      * exists size. split; [now right|].
        destruct (props_loop walk obj props w _) as [c2 [rest|e]]; [|discriminate].
        injection Hrun as _ <-. reflexivity.
    + destruct (sound_walk_prop walk obj prop subObj (Hwalk subObj) w c) as (Hc & _).
      destruct (walk_prop walk obj prop subObj w c) as [c1 [v|e]]; [|discriminate].
      cbn [fst] in Hc. apply time_range_after in Hc.
      destruct (props_loop walk obj props w c1) as [c2 [rest|e]] eqn:Erest; [|discriminate].
      injection Hrun as _ <-.
      destruct (IH w c1 c2 rest Hm Erest) as (count & Hcount & Hres).
      exists count. split; [exact Hcount|].
      cbn [Obj.lookup]. rewrite E, Hres, Hc. reflexivity.
Qed.

(** C4, amended: when the value under the key [interval] carries a truthy
    [%autointerval%], the rule for that key gives
    [roundInterval((bounds.max - bounds.min) / count)], with [count = 50]
    for [true] and the marker itself for a number, and throws
    [InvalidAutoInterval] for anything else; a walk of the mapping that
    succeeds leaves that string under [interval], and the walk fails when
    the marker is neither [true] nor a number.  With the bounds
    [1000, 9000] and the marker [true] the string is ["100ms"].  The
    string is stated where the quotient of line 90 is rounded to the same
    side of every threshold: integer bounds and an integer count of at
    least [1]. *)
Theorem autointerval_resolved (props : jobject) (isQuery : bool) (w : World) (c : Cache) :
  let subObj := Obj.lookup "interval" props in
  let marker := get subObj AUTOINTERVAL in
  let bounds := time_range w c in
  let interval count := JStr (roundInterval ((b_max bounds - b_min bounds) / count)) in
  truthy marker = true ->
  (forall count, marker = JBool true /\ count = 50%Q \/ marker = JNum count ->
                 interval_exact bounds count = true) ->
  (forall walk,
     walk_prop walk (JObj props) "interval" subObj w c =
       match marker with
       | JBool true => (Some bounds, Ok (interval 50%Q))
       | JNum count => (Some bounds, Ok (interval count))
       | _ => (c, Err InvalidAutoInterval)
       end) /\
  (forall c' r,
     injectQueryContextVars (JObj props) isQuery w c = (c', Ok r) ->
     exists count,
       (marker = JBool true /\ count = 50%Q \/ marker = JNum count) /\
       get r "interval" = interval count) /\
  (marker <> JBool true -> (forall count, marker <> JNum count) ->
   exists e, snd (injectQueryContextVars (JObj props) isQuery w c) = Err e) /\
  (bounds = mkBounds 1000 9000 -> marker = JBool true ->
   interval 50%Q = JStr "100ms").
Proof.
  intros subObj marker bounds interval Hm _.
  assert (Hrun : forall c' r,
             injectQueryContextVars (JObj props) isQuery w c = (c', Ok r) ->
             exists count,
               (marker = JBool true /\ count = 50%Q \/ marker = JNum count) /\
               get r "interval" = interval count).
  { intros c' r. rewrite injectQueryContextVars_obj. unfold bind.
    destruct (props_loop _ _ props w c) as [c1 [props'|e]] eqn:E; [|discriminate].
    intros [= _ <-].
    apply (props_loop_autointerval _ (JObj props) eq_refl
             (fun v => sound_injectQueryContextVars v isQuery) props w c c1 props' Hm E). }
  split; [|split; [|split]].
  - intros walk. now apply walk_prop_autointerval.
  - exact Hrun.
  - intros Htrue Hnum.
    destruct (injectQueryContextVars (JObj props) isQuery w c) as [c' [r|e]] eqn:E.
    + destruct (Hrun c' r eq_refl) as (count & [[H _]|H] & _).
      * now destruct Htrue.
      * now destruct (Hnum count).
    + now exists e.
  - intros Hb _. unfold interval. rewrite Hb. reflexivity.
Qed.

Lemma autointerval_resolved_witness :
  let props := [("interval", JObj [(AUTOINTERVAL, JBool true)])] in
  let w := mkWorld (mkBounds 1000 9000) JNull in
  truthy (get (Obj.lookup "interval" props) AUTOINTERVAL) = true /\
  interval_exact (time_range w None) 50 = true /\
  exists r, snd (injectQueryContextVars (JObj props) false w None) = Ok r /\
            get r "interval" = JStr "100ms".
Proof.
  intros props w. split; [reflexivity|]. split; [vm_compute; reflexivity|].
  assert (Hexact : forall count,
             get (Obj.lookup "interval" props) AUTOINTERVAL = JBool true /\ count = 50%Q \/
             get (Obj.lookup "interval" props) AUTOINTERVAL = JNum count ->
             interval_exact (time_range w None) count = true).
  { intros count [[_ ->]|H]; [vm_compute; reflexivity | discriminate H]. }
  destruct (autointerval_resolved props false w None eq_refl Hexact) as (_ & H & _ & Hs).
  destruct (injectQueryContextVars (JObj props) false w None) as [c' [r|e]] eqn:E.
  - exists r. split; [reflexivity|].
    destruct (H c' r eq_refl) as (count & [[_ ->]|Hc] & ->).
    + apply Hs; reflexivity.
    + discriminate Hc.
  - exfalso. vm_compute in E. discriminate E.
Defined.

(** C4 as stated fails: under [interval], an [%autointerval%] that is
    present but falsy (here [false], neither [true] nor a number) raises
    nothing; the walker leaves the mapping as it is. *)
Lemma autointerval_falsy_counterexample :
  let subObj := JObj [(AUTOINTERVAL, JBool false)] in
  let doc := JObj [("interval", subObj)] in
  let w := mkWorld (mkBounds 1000 9000) JNull in
  Obj.has AUTOINTERVAL (props_of subObj) = true /\
  get subObj AUTOINTERVAL <> JBool true /\
  (forall count, get subObj AUTOINTERVAL <> JNum count) /\
  injectQueryContextVars doc false w None = (None, Ok doc) /\
  snd (injectQueryContextVars doc false w None) <> Err InvalidAutoInterval.
Proof.
  cbv zeta. repeat split; try reflexivity; try discriminate.
Qed.

(** ** Clause markers in arrays *)

Lemma has_clause_truthy ctx ctxTag :
  has_clause ctx ctxTag = truthy (get (get ctx "bool") ctxTag).
Proof.
  unfold has_clause.
  destruct (truthy (get (get ctx "bool") ctxTag)) eqn:E.
  - destruct (truthy_get_obj _ _ E) as [b Hb].
    assert (Hc : truthy (get ctx "bool") = true) by now rewrite Hb.
    destruct (truthy_get_obj _ _ Hc) as [o ->]. now rewrite Hc.
  - apply andb_false_r.
Qed.

Lemma nth_insert_eq (l : list value) pos x d :
  pos < length l -> nth pos (<[pos := x]> l) d = x.
Proof.
  revert pos. induction l as [|y l IH]; intros [|pos] H; cbn in *; try lia.
  - reflexivity.
  - apply IH. lia.
Qed.

Lemma nth_drop (l : list value) n i d : nth i (drop n l) d = nth (n + i) l d.
Proof.
  revert l. induction n as [|n IH]; intros [|y l]; cbn; auto.
  now destruct i.
Qed.

Lemma nth_take_drop (l : list value) pos d :
  pos < length l ->
  nth pos (take pos l ++ drop (S pos) l) d = nth (S pos) l d.
Proof.
  intros H. rewrite app_nth2; rewrite length_take_le by lia; [|lia].
  rewrite Nat.sub_diag, nth_drop. f_equal. lia.
Qed.

Lemma drop_app_length_cons (done rest : list value) item n :
  n = S (length done) -> drop n (done ++ item :: rest) = rest.
Proof.
  intros ->. induction done as [|x done IH]; [reflexivity|]. exact IH.
Qed.

Lemma splice_at_cursor (done rest els : list value) item :
  splice (done ++ item :: rest) (length done) 1 els = (done ++ els) ++ rest.
Proof.
  unfold splice. rewrite take_app_length.
  rewrite drop_app_length_cons by lia. now rewrite app_assoc.
Qed.

Lemma insert_at_cursor (done rest : list value) item x :
  <[length done := x]> (done ++ item :: rest) = (done ++ [x]) ++ rest.
Proof.
  rewrite insert_app_r_alt by lia. rewrite Nat.sub_diag.
  now rewrite <- app_assoc.
Qed.

Section CursorLoop.
Variable walk : value -> M value.
Variable isQuery : bool.

(** The loop of the source, run for as many iterations as the array is
    long from the cursor on, ends with the cursor at the end of the
    array, and computes what [array_loop] computes. *)
Lemma cursor_loop_array_loop rest :
  forall done w c,
    cursor_loop walk isQuery (length rest) (done ++ rest) (length done) w c =
      match array_loop walk isQuery done rest w c with
      | (c', Ok obj') => (c', Ok (obj', length obj'))
      | (c', Err e) => (c', Err e)
      end.
Proof.
  induction rest as [|item rest IH]; intros done w c.
  - cbn. now rewrite app_nil_r.
  - assert (IH' : forall done' pos' c',
               pos' = length done' ->
               cursor_loop walk isQuery (length rest) (done' ++ rest) pos' w c' =
                 match array_loop walk isQuery done' rest w c' with
                 | (c'', Ok obj') => (c'', Ok (obj', length obj'))
                 | (c'', Err e) => (c'', Err e)
                 end).
    { intros done' pos' c' ->. apply IH. }
    cbn [length cursor_loop array_loop].
    assert (Hlt : (length done <? length (done ++ item :: rest))%nat = true).
    { apply Nat.ltb_lt. rewrite length_app. cbn. lia. }
    rewrite Hlt. unfold bind at 1. unfold cursor_step.
    rewrite nth_middle.
    destruct (isQuery && is_clause_marker item).
    + unfold bind, ask_dashboardContext.
      destruct (has_clause (dashboardContext w) (ctxTag_of item)).
      * destruct (get (get (dashboardContext w) "bool") (ctxTag_of item)) as [| | | | |els|];
          cbn [ret fst snd];
          rewrite ?insert_at_cursor, ?splice_at_cursor;
          apply IH'; rewrite length_app; cbn; lia.
      * cbn [ret fst snd]. rewrite splice_at_cursor, app_nil_r. now apply IH'.
    + unfold bind.
      destruct (walk item w c) as [c1 [item'|e]]; [|reflexivity].
      cbn [ret fst snd]. rewrite insert_at_cursor.
      apply IH'. rewrite length_app. cbn. lia.
Qed.
End CursorLoop.

(** The array branch of the walker is the cursor loop of the source, run
    to its end. *)
Lemma injectQueryContextVars_arr_cursor items isQuery w c :
  injectQueryContextVars (JArr items) isQuery w c =
    match cursor_loop (fun item => injectQueryContextVars item isQuery) isQuery
            (length items) items 0 w c with
    | (c', Ok st) => (c', Ok (JArr (fst st)))
    | (c', Err e) => (c', Err e)
    end.
Proof.
  rewrite injectQueryContextVars_arr.
  rewrite (cursor_loop_array_loop _ isQuery items [] w c).
  unfold bind. destruct (array_loop _ _ _ _ _ _) as [c' [obj'|e]]; reflexivity.
Qed.

(** The array loop, piece by piece. *)
Section ArrayLoopCompose.
Variable walk : value -> M value.
Variable isQuery : bool.

Lemma array_loop_prefix rest :
  forall done w c c' l,
    array_loop walk isQuery done rest w c = (c', Ok l) ->
    exists suffix, l = done ++ suffix.
Proof.
  induction rest as [|item rest IH]; intros done w c c' l; cbn [array_loop].
  - intros [= _ <-]. exists []. now rewrite app_nil_r.
  - assert (Hstep : forall x c1,
               array_loop walk isQuery (done ++ x) rest w c1 = (c', Ok l) ->
               exists suffix, l = done ++ suffix).
    { intros x c1 H. apply IH in H as [suffix ->].
      exists (x ++ suffix). now rewrite app_assoc. }
    destruct (isQuery && is_clause_marker item).
    + unfold bind, ask_dashboardContext.
      destruct (has_clause _ _); [|apply IH].
      destruct (get _ _); apply Hstep.
    + unfold bind. destruct (walk item w c) as [c1 [item'|e]]; [|discriminate].
      apply Hstep.
Qed.

Lemma array_loop_done rest :
  forall done w c,
    array_loop walk isQuery done rest w c =
      match array_loop walk isQuery [] rest w c with
      | (c', Ok l) => (c', Ok (done ++ l))
      | (c', Err e) => (c', Err e)
      end.
Proof.
  induction rest as [|item rest IH]; intros done w c; cbn [array_loop].
  - cbn. now rewrite app_nil_r.
  - assert (Hstep : forall x c1,
               array_loop walk isQuery (done ++ x) rest w c1 =
                 match array_loop walk isQuery ([] ++ x) rest w c1 with
                 | (c', Ok l) => (c', Ok (done ++ l))
                 | (c', Err e) => (c', Err e)
                 end).
    { intros x c1. rewrite (IH (done ++ x)), (IH ([] ++ x)).
      destruct (array_loop walk isQuery [] rest w c1) as [c' [l|e]]; [|reflexivity].
      cbn [app]. now rewrite app_assoc. }
    destruct (isQuery && is_clause_marker item).
    + unfold bind, ask_dashboardContext.
      destruct (has_clause _ _); [|apply IH].
      destruct (get _ _); apply Hstep.
    + unfold bind. destruct (walk item w c) as [c1 [item'|e]]; [|reflexivity].
      apply Hstep.
Qed.

Lemma array_loop_app l1 l2 :
  forall done w c,
    array_loop walk isQuery done (l1 ++ l2) w c =
      match array_loop walk isQuery done l1 w c with
      | (c1, Ok d) => array_loop walk isQuery d l2 w c1
      | (c1, Err e) => (c1, Err e)
      end.
Proof.
  induction l1 as [|item l1 IH]; intros done w c; cbn [app array_loop].
  - reflexivity.
  - destruct (isQuery && is_clause_marker item).
    + unfold bind, ask_dashboardContext.
      destruct (has_clause _ _); [|apply IH].
      destruct (get _ _); apply IH.
    + unfold bind. destruct (walk item w c) as [c1 [item'|e]]; [|reflexivity].
      apply IH.
Qed.

(** A clause marker under [isQuery]: what the dashboard context holds for
    it goes behind what is done, unwalked. *)
Lemma array_loop_marker_step item rest done w c :
  isQuery = true ->
  is_clause_marker item = true ->
  array_loop walk isQuery done (item :: rest) w c =
    array_loop walk isQuery
      (done ++ clause_elements (dashboardContext w) (ctxTag_of item)) rest w c.
Proof.
  intros -> Hmark. cbn [array_loop]. rewrite Hmark. cbn [andb].
  unfold bind, ask_dashboardContext, clause_elements.
  rewrite has_clause_truthy.
  destruct (get (get (dashboardContext w) "bool") (ctxTag_of item)) as [| |[|]|n|s|els|o];
    cbn [truthy]; rewrite ?app_nil_r; try reflexivity.
  - destruct (negb (Qeq_bool n 0)); rewrite ?app_nil_r; reflexivity.
  - destruct (negb (String.eqb s "")); rewrite ?app_nil_r; reflexivity.
Qed.
End ArrayLoopCompose.

(** The walk of a sequence around a clause marker: what is before the
    marker is walked, then what is behind it, and what the dashboard
    context holds for the marker stands between the two results. *)
Lemma injectQueryContextVars_around_marker pre post marker ctxTag w c :
  In (marker, ctxTag) [(MUST_CLAUSE, "must"); (MUST_NOT_CLAUSE, "must_not")] ->
  injectQueryContextVars (JArr (pre ++ JStr marker :: post)) true w c =
    match injectQueryContextVars (JArr pre) true w c with
    | (c1, Ok before) =>
        match injectQueryContextVars (JArr post) true w c1 with
        | (c2, Ok behind) =>
            (c2, Ok (JArr (elements before ++
                           clause_elements (dashboardContext w) ctxTag ++
                           elements behind)))
        | (c2, Err e) => (c2, Err e)
        end
    | (c1, Err e) => (c1, Err e)
    end.
Proof.
  intros Hm.
  assert (H : is_clause_marker (JStr marker) = true /\ ctxTag_of (JStr marker) = ctxTag).
  { destruct Hm as [[= <- <-]|[[= <- <-]|[]]]; split; reflexivity. }
  destruct H as [Hmark Htag].
  rewrite !injectQueryContextVars_arr. unfold bind.
  rewrite array_loop_app.
  destruct (array_loop _ true [] pre w c) as [c1 [d|e]]; [|reflexivity].
  cbn [ret elements].
  rewrite (array_loop_marker_step _ true (JStr marker) post d w c1 eq_refl Hmark), Htag.
  rewrite array_loop_done.
  destruct (array_loop _ true [] post w c1) as [c2 [l|e]]; [|reflexivity].
  cbn [ret elements]. now rewrite <- app_assoc.
Qed.

(** C6: the walker with [isQuery = true] at an array element that is a
    clause marker.  The array branch of the walker is the cursor loop of
    the source run to its end.  At the marker, a sequence of [k] elements
    in the matching [bool] field of the dashboard context takes the
    marker's place: the length changes by [k - 1] and the cursor moves
    behind the [k] elements.  A single fragment replaces the marker one
    for one.  A field that is absent or falsy removes the marker: the
    array is one shorter, the cursor stays, and the element that moved
    into the slot is the next one looked at.  So the walk of the whole
    array is the walk of what is before the marker, then what the context
    holds for the marker, unwalked, then the walk of everything behind
    it. *)
Theorem cursor_step_clause_marker
  (walk : value -> M value) (obj : list value) (pos : nat) (w : World) (c : Cache)
  (marker ctxTag : string) :
  pos < length obj ->
  nth pos obj JUndefined = JStr marker ->
  In (marker, ctxTag) [(MUST_CLAUSE, "must"); (MUST_NOT_CLAUSE, "must_not")] ->
  let field := get (get (dashboardContext w) "bool") ctxTag in
  let around inserted :=
    match injectQueryContextVars (JArr (take pos obj)) true w c with
    | (c1, Ok before) =>
        match injectQueryContextVars (JArr (drop (S pos) obj)) true w c1 with
        | (c2, Ok behind) =>
            (c2, Ok (JArr (elements before ++ inserted ++ elements behind)))
        | (c2, Err e) => (c2, Err e)
        end
    | (c1, Err e) => (c1, Err e)
    end in
  (injectQueryContextVars (JArr obj) true w c =
     match cursor_loop (fun item => injectQueryContextVars item true) true
             (length obj) obj 0 w c with
     | (c', Ok st) => (c', Ok (JArr (fst st)))
     | (c', Err e) => (c', Err e)
     end) /\
  (forall els, field = JArr els ->
     let obj' := take pos obj ++ els ++ drop (S pos) obj in
     cursor_step walk true obj pos w c = (c, Ok (obj', pos + length els)) /\
     length obj' + 1 = length obj + length els /\
     (forall n, cursor_loop walk true (S n) obj pos w c =
                cursor_loop walk true n obj' (pos + length els) w c) /\
     injectQueryContextVars (JArr obj) true w c = around els) /\
  (truthy field = true -> isArray field = false ->
     let obj' := <[pos := field]> obj in
     cursor_step walk true obj pos w c = (c, Ok (obj', S pos)) /\
     length obj' = length obj /\
     nth pos obj' JUndefined = field /\
     (forall n, cursor_loop walk true (S n) obj pos w c =
                cursor_loop walk true n obj' (S pos) w c) /\
     injectQueryContextVars (JArr obj) true w c = around [field]) /\
  (truthy field = false ->
     let obj' := take pos obj ++ drop (S pos) obj in
     cursor_step walk true obj pos w c = (c, Ok (obj', pos)) /\
     length obj' + 1 = length obj /\
     nth pos obj' JUndefined = nth (S pos) obj JUndefined /\
     (forall n, cursor_loop walk true (S n) obj pos w c =
                cursor_loop walk true n obj' pos w c) /\
     injectQueryContextVars (JArr obj) true w c = around []).
Proof.
  intros Hpos Hitem Hmarker field around.
  assert (Htag : is_clause_marker (JStr marker) = true /\ ctxTag_of (JStr marker) = ctxTag).
  { destruct Hmarker as [[= <- <-]|[[= <- <-]|[]]]; split; reflexivity. }
  destruct Htag as [Hmark Htag].
  assert (Hstep : cursor_step walk true obj pos w c =
                  if truthy field then
                    match field with
                    | JArr els => (c, Ok (splice obj pos 1 els, pos + length els))
                    | fragment => (c, Ok (<[pos := fragment]> obj, S pos))
                    end
                  else (c, Ok (splice obj pos 1 [], pos))).
  { unfold cursor_step. rewrite Hitem, Hmark, Htag. cbn [andb].
    unfold bind, ask_dashboardContext. rewrite has_clause_truthy. fold field.
    destruct (truthy field); [|reflexivity]. now destruct field. }
  assert (Hloop : forall n st,
             cursor_step walk true obj pos w c = (c, Ok st) ->
             cursor_loop walk true (S n) obj pos w c =
             cursor_loop walk true n (fst st) (snd st) w c).
  { intros n st Hst. cbn [cursor_loop].
    apply Nat.ltb_lt in Hpos. rewrite Hpos. unfold bind. now rewrite Hst. }
  assert (Hsplice : forall els, splice obj pos 1 els = take pos obj ++ els ++ drop (S pos) obj).
  { intros els. unfold splice. now rewrite Nat.add_1_r. }
  assert (Hwalk : injectQueryContextVars (JArr obj) true w c =
                  around (clause_elements (dashboardContext w) ctxTag)).
  { unfold around.
    rewrite <- (injectQueryContextVars_around_marker _ _ marker ctxTag w c Hmarker).
    f_equal. f_equal. symmetry. apply take_drop_middle.
    destruct (nth_lookup_or_length obj pos JUndefined) as [H|H]; [|lia].
    now rewrite H, Hitem. }
  unfold clause_elements in Hwalk. fold field in Hwalk.
  split; [apply injectQueryContextVars_arr_cursor|]. split; [|split].
  - intros els Hf obj'. rewrite Hf in Hstep, Hwalk. cbn [truthy] in Hstep.
    rewrite Hsplice in Hstep. fold obj' in Hstep.
    split; [exact Hstep|]. split; [|split].
    + unfold obj'. rewrite !length_app, length_take_le, length_drop by lia. lia.
    + intros n. apply (Hloop n _ Hstep).
    + exact Hwalk.
  - intros Ht Harr obj'. rewrite Ht in Hstep.
    assert (Hstep' : cursor_step walk true obj pos w c = (c, Ok (obj', S pos))).
    { rewrite Hstep. destruct field; try reflexivity. discriminate Harr. }
    split; [exact Hstep'|]. split; [apply length_insert|]. split; [|split].
    + now apply nth_insert_eq.
    + intros n. apply (Hloop n _ Hstep').
    + rewrite Hwalk. clear Hstep Hstep' Hwalk. subst obj'.
      destruct field; try discriminate Harr; try discriminate Ht;
        cbn [truthy] in Ht |- *; rewrite ?Ht; reflexivity.
  - intros Hf obj'. rewrite Hf, Hsplice in Hstep. cbn [app] in Hstep.
    fold obj' in Hstep.
    split; [exact Hstep|]. split; [|split; [|split]].
    + unfold obj'. rewrite !length_app, length_take_le, length_drop by lia. lia.
    + now apply nth_take_drop.
    + intros n. apply (Hloop n _ Hstep).
    + rewrite Hwalk. clear Hstep Hwalk. subst obj'.
      destruct field; try discriminate Hf;
        cbn [truthy] in Hf |- *; rewrite ?Hf; reflexivity.
Qed.

Lemma cursor_step_clause_marker_witness :
  let ctx := JObj [("bool", JObj [("must", JArr [JStr "a"; JStr "b"])])] in
  let w := mkWorld (mkBounds 1000 9000) ctx in
  let obj := [JStr "x"; JStr MUST_CLAUSE; JStr "y"] in
  cursor_step (fun v => ret v) true obj 1 w None =
    (None, Ok ([JStr "x"; JStr "a"; JStr "b"; JStr "y"], 3)) /\
  injectQueryContextVars (JArr obj) true w None =
    (None, Ok (JArr [JStr "x"; JStr "a"; JStr "b"; JStr "y"])).
Proof.
  intros ctx w obj.
  assert (Hpos : 1 < length obj) by (cbn; lia).
  destruct (cursor_step_clause_marker (fun v => ret v) obj 1 w None
              MUST_CLAUSE "must" Hpos eq_refl (or_introl eq_refl)) as (_ & Hseq & _).
  destruct (Hseq [JStr "a"; JStr "b"] eq_refl) as (Hstep & _ & _ & Hwalk).
  split; [exact Hstep|]. rewrite Hwalk. reflexivity.
Defined.

(** ** Running the walker twice *)

Lemma createRangeFilter_result obj w c c' r :
  createRangeFilter obj w c = (c', Ok r) ->
  exists gte lte,
    r = Obj.delete "unit"
          (Obj.delete "shift"
             (Obj.delete TIMEFILTER
                (Obj.assign "format" (JStr "epoch_millis")
                   (Obj.assign "lte" (JNum lte)
                      (Obj.assign "gte" (JNum gte) obj))))).
Proof.
  unfold createRangeFilter, bind.
  destruct (getTimeBound obj Min w c) as [c1 [gte|e]]; [|discriminate].
  destruct (getTimeBound _ Max w c1) as [c2 [lte|e]]; [|discriminate].
  cbn [ret]. intros [= _ <-]. eauto.
Qed.

Section ForallbObj.
Variable R : string * value -> bool.

Lemma forallb_assign k v o :
  R (k, v) = true -> forallb R o = true -> forallb R (Obj.assign k v o) = true.
Proof.
  intros Hkv. induction o as [|[k0 v0] o IH]; cbn [Obj.assign forallb].
  - intros _. now rewrite Hkv.
  - intros H. apply andb_true_iff in H as [H0 Ho].
    destruct (String.eqb k k0) eqn:E; cbn [forallb].
    + apply String.eqb_eq in E. subst k0. now rewrite Hkv, Ho.
    + now rewrite H0, IH.
Qed.

Lemma forallb_delete k o :
  forallb R o = true -> forallb R (Obj.delete k o) = true.
Proof.
  induction o as [|[k0 v0] o IH]; cbn [Obj.delete forallb]; [reflexivity|].
  intros H. apply andb_true_iff in H as [H0 Ho].
  destruct (String.eqb k k0); cbn [forallb]; [auto|]. now rewrite H0, IH.
Qed.

Lemma forallb_delete_except k o :
  forallb (fun kv => String.eqb (fst kv) k || R kv) o = true ->
  forallb R (Obj.delete k o) = true.
Proof.
  induction o as [|[k0 v0] o IH]; cbn [Obj.delete forallb fst]; [reflexivity|].
  intros H. apply andb_true_iff in H as [H0 Ho].
  destruct (String.eqb k k0) eqn:E; cbn [forallb]; [auto|].
  rewrite String.eqb_sym, E in H0. cbn [orb] in H0. now rewrite H0, IH.
Qed.
End ForallbObj.

(** The walk of a value that is no clause marker is no clause marker. *)
Lemma injectQueryContextVars_not_marker item isQuery w c c' r :
  injectQueryContextVars item isQuery w c = (c', Ok r) ->
  is_clause_marker item = false -> is_clause_marker r = false.
Proof.
  destruct item as [| | | | |items|props]; try (now intros [= _ <-]).
  - rewrite injectQueryContextVars_arr. unfold bind.
    destruct (array_loop _ _ _ _ _ _) as [c1 [l|e]]; [|discriminate].
    now intros [= _ <-].
  - rewrite injectQueryContextVars_obj. unfold bind.
    destruct (props_loop _ _ _ _ _) as [c1 [l|e]]; [|discriminate].
    now intros [= _ <-].
Qed.

Section Settles.
Variable walk : value -> M value.
Variable isQuery : bool.
Variable w : World.

Hypothesis walk_not_marker :
  forall item c c' r,
    walk item w c = (c', Ok r) ->
    is_clause_marker item = false -> is_clause_marker r = false.

Lemma array_loop_settles rest :
  Forall (fun item => settles (dashboardContext w) isQuery item = true ->
                      forall c c' r, walk item w c = (c', Ok r) -> marker_free r = true)
    rest ->
  forallb (fun item =>
             if is_clause_marker item
             then isQuery && clauses_marker_free (dashboardContext w) (ctxTag_of item)
             else settles (dashboardContext w) isQuery item) rest = true ->
  forall done c c' l,
    forallb (fun x => negb (is_clause_marker x) && marker_free x) done = true ->
    array_loop walk isQuery done rest w c = (c', Ok l) ->
    forallb (fun x => negb (is_clause_marker x) && marker_free x) l = true.
Proof.
  induction 1 as [|item rest Hitem _ IH]; intros Hcond done c c' l Hdone.
  - cbn [array_loop]. now intros [= _ <-].
  - cbn [forallb] in Hcond. apply andb_true_iff in Hcond as [Hhd Htl].
    destruct (is_clause_marker item) eqn:Hmark.
    + apply andb_true_iff in Hhd as [Hq Hclauses].
      rewrite (array_loop_marker_step walk isQuery item rest done w c Hq Hmark).
      apply (IH Htl). rewrite forallb_app, Hdone. exact Hclauses.
    + cbn [array_loop]. rewrite Hmark, andb_false_r. unfold bind.
      destruct (walk item w c) as [c1 [r|e]] eqn:E; [|discriminate].
      apply (IH Htl). rewrite forallb_app, Hdone. cbn [forallb].
      rewrite (walk_not_marker _ _ _ _ E Hmark), (Hitem Hhd _ _ _ E). reflexivity.
Qed.

Lemma walk_prop_settles obj prop subObj c c' v :
  typeof obj = "object" ->
  (settles (dashboardContext w) isQuery subObj = true ->
   forall c c' r, walk subObj w c = (c', Ok r) -> marker_free r = true) ->
  (if negb (truthy subObj) then true
   else if String.eqb prop "interval" && truthy (get subObj AUTOINTERVAL) then true
   else match get subObj TIMEFILTER with
        | JStr type => String.eqb type "min" || String.eqb type "max"
        | JBool true => range_marker_free subObj
        | JUndefined => settles (dashboardContext w) isQuery subObj
        | _ => false
        end) = true ->
  walk_prop walk obj prop subObj w c = (c', Ok v) ->
  marker_free v = true.
Proof.
  intros Hobj Hsub Hcond. unfold walk_prop. rewrite Hobj.
  cbn [String.eqb Ascii.eqb Bool.eqb negb]. rewrite orb_false_r.
  destruct (truthy subObj) eqn:Ht; cbn [negb] in *.
  2:{ intros [= _ <-].
      destruct subObj as [| |[|]|n|s| |]; try discriminate Ht; reflexivity. }
  destruct (String.eqb prop "interval" && truthy (get subObj AUTOINTERVAL)).
  { unfold bind.
    destruct (get subObj AUTOINTERVAL) as [| |[|]|n| | |]; try discriminate;
      cbn [ret]; rewrite getTimeRange_eq; now intros [= _ <-]. }
  destruct (get subObj TIMEFILTER) as [| |[|]| |type| |] eqn:Htf; try discriminate Hcond.
  - now apply Hsub.
  - unfold bind.
    destruct (createRangeFilter (props_of subObj) w c) as [c1 [range|e]] eqn:E;
      [|discriminate].
    intros [= _ <-]. apply createRangeFilter_result in E as (gte & lte & ->).
    cbn [marker_free].
    do 2 apply forallb_delete. apply forallb_delete_except.
    repeat apply forallb_assign; try reflexivity.
    exact Hcond.
  - unfold bind.
    destruct (String.eqb type "min");
      [|destruct (String.eqb type "max"); [|discriminate]];
      destruct (getTimeBound _ _ w c) as [c1 [t|e]]; try discriminate;
      now intros [= _ <-].
Qed.

Lemma props_loop_settles obj props :
  typeof obj = "object" ->
  Forall (fun kv => settles (dashboardContext w) isQuery (snd kv) = true ->
                    forall c c' r, walk (snd kv) w c = (c', Ok r) -> marker_free r = true)
    props ->
  forallb (fun kv =>
             negb (is_marker_key (fst kv)) &&
             (let subObj := snd kv in
              if negb (truthy subObj) then true
              else if String.eqb (fst kv) "interval" && truthy (get subObj AUTOINTERVAL)
              then true
              else match get subObj TIMEFILTER with
                   | JStr type => String.eqb type "min" || String.eqb type "max"
                   | JBool true => range_marker_free subObj
                   | JUndefined => settles (dashboardContext w) isQuery subObj
                   | _ => false
                   end)) props = true ->
  forall c c' r,
    props_loop walk obj props w c = (c', Ok r) ->
    forallb (fun kv => negb (is_marker_key (fst kv)) && marker_free (snd kv)) r = true.
Proof.
  intros Hobj. induction 1 as [|[prop subObj] props Hsub _ IH]; intros Hcond c c' r.
  - cbn [props_loop]. now intros [= _ <-].
  - cbn [forallb fst snd] in Hcond, Hsub.
    apply andb_true_iff in Hcond as [Hhd Htl].
    apply andb_true_iff in Hhd as [Hkey Hchild].
    cbn [props_loop]. unfold bind.
    destruct (walk_prop walk obj prop subObj w c) as [c1 [v|e]] eqn:E; [|discriminate].
    destruct (props_loop walk obj props w c1) as [c2 [rest|e]] eqn:Erest; [|discriminate].
    intros [= _ <-]. cbn [forallb fst snd].
    rewrite Hkey, (walk_prop_settles _ _ _ _ _ _ Hobj Hsub Hchild E).
    exact (IH Htl _ _ _ Erest).
Qed.
End Settles.

(** One walk of a document that [settles] leaves no placeholder marker. *)
Lemma injectQueryContextVars_settles (doc : value) (isQuery : bool) (w : World) :
  settles (dashboardContext w) isQuery doc = true ->
  forall c c' r,
    injectQueryContextVars doc isQuery w c = (c', Ok r) -> marker_free r = true.
Proof.
  induction doc as [| | | | |items IH|props IH] using value_ind';
    intros Hs c c' r; try (now intros [= _ <-]).
  - rewrite injectQueryContextVars_arr. unfold bind.
    destruct (array_loop _ _ _ _ _ _) as [c1 [l|e]] eqn:E; [|discriminate].
    intros [= _ <-]. cbn [marker_free].
    exact (array_loop_settles (fun item => injectQueryContextVars item isQuery) isQuery w
             (fun item c0 c0' r0 => injectQueryContextVars_not_marker item isQuery w c0 c0' r0)
             items IH Hs [] c c1 l eq_refl E).
  - rewrite injectQueryContextVars_obj. unfold bind.
    destruct (props_loop _ _ _ _ _) as [c1 [l|e]] eqn:E; [|discriminate].
    intros [= _ <-]. cbn [marker_free].
    exact (props_loop_settles (fun subObj => injectQueryContextVars subObj isQuery) isQuery w
             (JObj props) props eq_refl IH Hs c c1 l E).
Qed.

(** C8, amended: the walker leaves a document without placeholder markers
    as it is (and does not touch the time-bounds cache), whatever its depth
    and for both values of [isQuery]; consequently a second run over the
    tree a first run produced changes nothing whenever the first run left
    no marker in it; and it leaves none when every marker of the document
    sits where the walker resolves it ([settles]): in the value of a
    property or, for a clause marker, in a sequence walked with
    [isQuery = true], and neither below a [{"%timefilter%": true}] object
    nor inside the clauses the dashboard context supplies. *)
Theorem injectQueryContextVars_resolved_noop (doc : value) (isQuery : bool) (w : World) (c : Cache) :
  (marker_free doc = true -> injectQueryContextVars doc isQuery w c = (c, Ok doc)) /\
  (forall c' doc',
     injectQueryContextVars doc isQuery w c = (c', Ok doc') ->
     (marker_free doc' = true ->
      forall w', injectQueryContextVars doc' isQuery w' c' = (c', Ok doc')) /\
     (settles (dashboardContext w) isQuery doc = true ->
      marker_free doc' = true /\
      forall w', injectQueryContextVars doc' isQuery w' c' = (c', Ok doc'))).
Proof.
  split.
  - intros Hfree. now apply injectQueryContextVars_marker_free.
  - intros c' doc' Hrun. split.
    + intros Hfree w'. now apply injectQueryContextVars_marker_free.
    + intros Hs.
      pose proof (injectQueryContextVars_settles doc isQuery w Hs c c' doc' Hrun) as Hfree.
      split; [exact Hfree|]. intros w'. now apply injectQueryContextVars_marker_free.
Qed.

Lemma injectQueryContextVars_resolved_noop_witness :
  let ctx := JObj [("bool", JObj [("must", JArr [JObj [("term", JObj [("a", JNum 1)])]])])] in
  let w := mkWorld (mkBounds 1000 9000) ctx in
  let plain := JObj [("query", JObj [("match_all", JObj [])])] in
  let doc := JObj [("bool", JObj [("must", JArr [JStr MUST_CLAUSE;
               JObj [("range", JObj [("t", JObj [(TIMEFILTER, JBool true)])])]])])] in
  injectQueryContextVars plain true w None = (None, Ok plain) /\
  settles ctx true doc = true /\
  exists c' doc',
    injectQueryContextVars doc true w None = (c', Ok doc') /\
    marker_free doc' = true /\
    injectQueryContextVars doc' true w c' = (c', Ok doc').
Proof.
  intros ctx w plain doc. split; [|split; [reflexivity|]].
  - apply (proj1 (injectQueryContextVars_resolved_noop plain true w None)).
    reflexivity.
  - destruct (injectQueryContextVars doc true w None) as [c' [doc'|e]] eqn:E.
    + exists c', doc'. split; [reflexivity|].
      destruct (proj2 (injectQueryContextVars_resolved_noop doc true w None) c' doc' E)
        as [_ Hs].
      destruct (Hs eq_refl) as [Hfree Hnoop]. split; [exact Hfree | apply Hnoop].
    + exfalso. vm_compute in E. discriminate E.
Defined.

(** C8 as stated fails: a first run does not always leave a resolved tree.
    Below a [{"%timefilter%": true}] object the walker does not walk, so
    the marker under [nested] survives the first run, and the second run
    replaces it by the time bound. *)
Lemma injectQueryContextVars_second_run_counterexample :
  let w := mkWorld (mkBounds 1000 9000) JNull in
  let doc := JObj [("range", JObj [("@timestamp",
               JObj [(TIMEFILTER, JBool true);
                     ("nested", JObj [(TIMEFILTER, JStr "min")])])])] in
  let once := JObj [("range", JObj [("@timestamp",
               JObj [("nested", JObj [(TIMEFILTER, JStr "min")]);
                     ("gte", JNum 1000); ("lte", JNum 9000);
                     ("format", JStr "epoch_millis")])])] in
  let twice := JObj [("range", JObj [("@timestamp",
               JObj [("nested", JNum 1000);
                     ("gte", JNum 1000); ("lte", JNum 9000);
                     ("format", JStr "epoch_millis")])])] in
  injectQueryContextVars doc true w None = (Some (mkBounds 1000 9000), Ok once) /\
  injectQueryContextVars once true w (Some (mkBounds 1000 9000)) =
    (Some (mkBounds 1000 9000), Ok twice) /\
  once <> twice.
Proof.
  cbv zeta. repeat split; try reflexivity. discriminate.
Qed.

(** ** [queryEsData] *)

Lemma lookup_defined_has k o : Obj.lookup k o <> JUndefined -> Obj.has k o = true.
Proof.
  intros H. destruct (Obj.has k o) eqn:E; [reflexivity|].
  now apply ObjFacts.has_false_lookup in E.
Qed.

Lemma assign_assign k v v' o : Obj.assign k v (Obj.assign k v' o) = Obj.assign k v o.
Proof.
  induction o as [|[k0 v0] o IH]; cbn.
  - now rewrite String.eqb_refl.
  - destruct (String.eqb k k0) eqn:E; cbn; rewrite E; [reflexivity|].
    now rewrite IH.
Qed.

Lemma get_assign_eq k v o : get (JObj (Obj.assign k v o)) k = v.
Proof. apply ObjFacts.lookup_assign_eq. Qed.

Lemma get_mutated_at_eq o k v : get o k <> JUndefined -> get (mutated_at o k v) k = v.
Proof.
  intros H. destruct (get_defined_obj _ _ H) as [props ->].
  unfold get in *. cbn [props_of mutated_at] in *.
  rewrite (lookup_defined_has _ _ H). cbn [props_of].
  apply ObjFacts.lookup_assign_eq.
Qed.

Lemma get_mutated_at_ne o k k' v : k <> k' -> get (mutated_at o k' v) k = get o k.
Proof.
  intros H. destruct o; try reflexivity. unfold get. cbn [mutated_at].
  destruct (Obj.has k' props); [|reflexivity]. cbn [props_of].
  now apply ObjFacts.lookup_assign_ne.
Qed.

Lemma createRangeFilter_timefilter_true w c :
  createRangeFilter [(TIMEFILTER, JBool true)] w c =
    (Some (time_range w c),
     Ok [("gte", JNum (b_min (time_range w c)));
         ("lte", JNum (b_max (time_range w c)));
         ("format", JStr "epoch_millis")]).
Proof.
  unfold createRangeFilter, getTimeBound, bind. rewrite getTimeRange_eq.
  cbn -[time_range getTimeRange]. rewrite getTimeRange_eq. reflexivity.
Qed.

Lemma invalid_field_spec marker :
  invalid_field marker = false <->
  marker = JBool true \/ exists s, marker = JStr s /\ s <> "".
Proof.
  destruct marker as [| |[|]|n|s| |]; cbn [invalid_field]; split;
    try discriminate; try tauto; try (intros [H|(s' & H & _)]; discriminate H).
  - intros H. right. exists s. split; [reflexivity|]. now apply String.eqb_neq.
  - intros [H|(s' & [= <-] & H)]; [discriminate|]. now apply String.eqb_neq.
Qed.

(** The simple-query branch, case by case.  [body] is [uri.body || {}]. *)

Lemma queryEsData_conflict uri w c :
  let body := js_or (Obj.lookup "body" uri) (JObj []) in
  truthy (Obj.lookup SIMPLE_QUERY uri) = true ->
  truthy (get body "query") = true ->
  queryEsData (JObj uri) w c = (c, Err ConflictingQuery).
Proof.
  intros body Hmarker Hq. unfold queryEsData. fold body.
  rewrite ObjFacts.lookup_assign_ne by discriminate.
  rewrite Hmarker, Hq. reflexivity.
Qed.

Lemma queryEsData_invalid_field uri w c :
  let body := js_or (Obj.lookup "body" uri) (JObj []) in
  truthy (Obj.lookup SIMPLE_QUERY uri) = true ->
  truthy (get body "query") = false ->
  invalid_field (Obj.lookup SIMPLE_QUERY uri) = true ->
  queryEsData (JObj uri) w c = (c, Err InvalidContextQueryField).
Proof.
  intros body Hmarker Hq Hf. unfold queryEsData. fold body.
  rewrite ObjFacts.lookup_assign_ne by discriminate.
  rewrite Hmarker, Hq, Hf. reflexivity.
Qed.

Lemma queryEsData_context_true uri w c :
  let body := js_or (Obj.lookup "body" uri) (JObj []) in
  let uri' := Obj.delete SIMPLE_QUERY (Obj.assign "body" body uri) in
  truthy (get body "query") = false ->
  Obj.lookup SIMPLE_QUERY uri = JBool true ->
  queryEsData (JObj uri) w c =
    (body' <- setprop body "query" (dashboardContext w) ;;
     resolve_aggs_and_search uri' body') w c.
Proof.
  intros body uri' Hq Hf. unfold queryEsData. fold body.
  rewrite ObjFacts.lookup_assign_ne by discriminate.
  rewrite Hf, Hq. cbn [truthy invalid_field negb].
  unfold bind, ask_dashboardContext, resolve_aggs_and_search.
  destruct (setprop body "query" (dashboardContext w) w c) as [c' [body'|e]];
    reflexivity.
Qed.

Lemma queryEsData_context_field uri w c field :
  let body := js_or (Obj.lookup "body" uri) (JObj []) in
  let uri' := Obj.delete SIMPLE_QUERY (Obj.assign "body" body uri) in
  truthy (get body "query") = false ->
  Obj.lookup SIMPLE_QUERY uri = JStr field ->
  field <> "" ->
  queryEsData (JObj uri) w c =
    match body, get (get (dashboardContext w) "bool") "must" with
    | JObj props, JArr els =>
        let must := JArr (els ++ [range_filter field (time_range w c)]) in
        let bool := mutated_at (get (dashboardContext w) "bool") "must" must in
        let query := mutated_at (dashboardContext w) "bool" bool in
        resolve_aggs_and_search uri' (JObj (Obj.assign "query" query props))
          w (Some (time_range w c))
    | JObj props, JUndefined | JObj props, JNull => (c, Err TypeError)
    | JObj props, _ => (Some (time_range w c), Err TypeError)
    | _, _ => (c, Err TypeError)
    end.
Proof.
  intros body uri' Hq Hf Hne. unfold queryEsData. fold body.
  rewrite ObjFacts.lookup_assign_ne by discriminate.
  rewrite Hf, Hq. cbn [truthy invalid_field negb field_name].
  apply String.eqb_neq in Hne. rewrite Hne. cbn [negb].
  unfold bind at 1 2. unfold ask_dashboardContext. unfold bind at 1.
  subst uri'.
  destruct body as [| | | | | |props]; try reflexivity.
  cbn [setprop ret].
  assert (Hmut : forall query,
             mutated_at (JObj (Obj.assign "query" (dashboardContext w) props)) "query" query =
             JObj (Obj.assign "query" query props)).
  { intros query. cbn [mutated_at].
    now rewrite ObjFacts.has_assign_eq, assign_assign. }
  unfold bind, resolve_aggs_and_search.
  destruct (dashboardContext w) as [| | | | | |ctx]; try reflexivity.
  cbn [getprop ret]. change (get (JObj ctx) "bool") with (Obj.lookup "bool" ctx).
  destruct (Obj.lookup "bool" ctx) as [| | | | | |b]; try reflexivity.
  cbn [getprop ret]. change (get (JObj b) "must") with (Obj.lookup "must" b).
  destruct (Obj.lookup "must" b) as [| | | | |els|must];
    cbn [getprop ret throw];
    rewrite ?createRangeFilter_timefilter_true; try reflexivity.
  cbn [ret fst snd]. rewrite Hmut. reflexivity.
Qed.

Lemma sound_resolve_aggs_and_search uri body :
  sound late_error (resolve_aggs_and_search uri body).
Proof.
  unfold resolve_aggs_and_search.
  apply sound_bind; [|intros; apply sound_ret].
  eapply sound_weaken; [|apply sound_injectQueryContextVars].
  intros e He. now destruct e.
Qed.

Lemma resolve_aggs_and_search_request uri body w c request :
  snd (resolve_aggs_and_search uri body w c) = Ok (EsSearch request) ->
  Obj.has SIMPLE_QUERY (props_of request) = Obj.has SIMPLE_QUERY uri /\
  get (get request "body") "query" = get body "query".
Proof.
  unfold resolve_aggs_and_search, bind.
  destruct (injectQueryContextVars (get body "aggs") false w c) as [c' [aggs|e]];
    [|discriminate].
  cbn [ret snd]. intros [= <-]. cbn [props_of]. split.
  - now apply ObjFacts.has_assign_ne.
  - unfold get at 2. cbn [props_of]. rewrite ObjFacts.lookup_assign_eq.
    now apply get_mutated_at_ne.
Qed.

(** After its two checks the simple-query branch raises nothing but a
    [TypeError] or an error of the tree walker. *)
Lemma queryEsData_simple_late uri w c e :
  truthy (Obj.lookup SIMPLE_QUERY uri) = true ->
  truthy (get (js_or (Obj.lookup "body" uri) (JObj [])) "query") = false ->
  invalid_field (Obj.lookup SIMPLE_QUERY uri) = false ->
  snd (queryEsData (JObj uri) w c) = Err e -> late_error e = true.
Proof.
  intros Hm Hq Hf. apply invalid_field_spec in Hf as [Hf|(field & Hf & Hne)].
  - rewrite (queryEsData_context_true uri w c Hq Hf).
    apply (sound_bind late_error).
    + apply sound_setprop. reflexivity.
    + intros body'. apply sound_resolve_aggs_and_search.
  - rewrite (queryEsData_context_field uri w c field Hq Hf Hne).
    destruct (js_or _ _); try (now intros [= <-]).
    destruct (get _ "must"); try (now intros [= <-]).
    cbv zeta. apply sound_resolve_aggs_and_search.
Qed.

(** The two checks of the simple-query branch, and the request that
    reaches the search collaborator. *)
Lemma queryEsData_simple_checks (uri : jobject) (w : World) (c : Cache) :
  let marker := Obj.lookup SIMPLE_QUERY uri in
  let body := js_or (Obj.lookup "body" uri) (JObj []) in
  let outcome := snd (queryEsData (JObj uri) w c) in
  truthy marker = true ->
  (outcome = Err ConflictingQuery <-> truthy (get body "query") = true) /\
  (outcome = Err InvalidContextQueryField <->
     truthy (get body "query") = false /\
     ~ (marker = JBool true \/ exists s, marker = JStr s /\ s <> "")) /\
  (forall request, outcome = Ok (EsSearch request) ->
     Obj.has SIMPLE_QUERY (props_of request) = false /\
     let query := get (get request "body") "query" in
     (marker = JBool true -> query = dashboardContext w) /\
     (forall field, marker = JStr field ->
        exists els,
          get (get (dashboardContext w) "bool") "must" = JArr els /\
          get (get query "bool") "must" =
            JArr (els ++ [range_filter field (time_range w c)]) /\
          (forall k, k <> "bool" -> get query k = get (dashboardContext w) k) /\
          (forall k, k <> "must" ->
                     get (get query "bool") k = get (get (dashboardContext w) "bool") k))).
Proof.
  intros marker body outcome Hm.
  destruct (truthy (get body "query")) eqn:Hq.
  { assert (Ho : outcome = Err ConflictingQuery).
    { unfold outcome. now rewrite (queryEsData_conflict uri w c Hm Hq). }
    rewrite Ho. split; [|split].
    - split; auto.
    - split; [discriminate | intros [H _]; discriminate H].
    - intros request H. discriminate H. }
  destruct (invalid_field marker) eqn:Hf.
  { assert (Ho : outcome = Err InvalidContextQueryField).
    { unfold outcome. now rewrite (queryEsData_invalid_field uri w c Hm Hq Hf). }
    rewrite Ho. split; [|split].
    - split; discriminate.
    - split; [|reflexivity]. intros _. split; [reflexivity|].
      intros H. apply invalid_field_spec in H. congruence.
    - intros request H. discriminate H. }
  pose proof (fun e => queryEsData_simple_late uri w c e Hm Hq Hf) as Hlate.
  fold outcome in Hlate.
  split; [|split].
  - split; [|discriminate]. intros Ho. apply Hlate in Ho. discriminate Ho.
  - split.
    + intros Ho. apply Hlate in Ho. discriminate Ho.
    + intros [_ H]. destruct H. now apply invalid_field_spec.
  - intros request Ho. unfold outcome in Ho.
    assert (Hdel : forall b, Obj.has SIMPLE_QUERY
                     (Obj.delete SIMPLE_QUERY (Obj.assign "body" b uri)) = false)
      by (intros; apply ObjFacts.has_delete_eq).
    apply invalid_field_spec in Hf as [Hf|(field & Hf & Hne)].
    + rewrite (queryEsData_context_true uri w c Hq Hf) in Ho.
      unfold bind in Ho. fold body in Ho.
      destruct body as [| | | | | |props]; try discriminate Ho.
      cbn [setprop ret] in Ho.
      apply resolve_aggs_and_search_request in Ho as [Hhas Hquery].
      rewrite Hhas, Hdel. split; [reflexivity|]. cbv zeta.
      rewrite Hquery, get_assign_eq.
      split; [reflexivity|]. fold marker. rewrite Hf. discriminate.
    + rewrite (queryEsData_context_field uri w c field Hq Hf Hne) in Ho.
      fold body in Ho.
      destruct body as [| | | | | |props]; try discriminate Ho.
      destruct (get (get (dashboardContext w) "bool") "must") as [| | | | |els|] eqn:Hmust;
        try discriminate Ho.
      cbv zeta in Ho.
      apply resolve_aggs_and_search_request in Ho as [Hhas Hquery].
      rewrite Hhas, Hdel. split; [reflexivity|]. cbv zeta.
      rewrite Hquery, get_assign_eq.
      split; [fold marker; rewrite Hf; discriminate|].
      intros field' Hf'. fold marker in Hf'. rewrite Hf in Hf'.
      injection Hf' as <-. exists els. split; [reflexivity|].
      assert (Hbool : get (dashboardContext w) "bool" <> JUndefined).
      { intros E. rewrite E in Hmust. discriminate Hmust. }
      assert (Hmust' : get (get (dashboardContext w) "bool") "must" <> JUndefined)
        by (rewrite Hmust; discriminate).
      rewrite (get_mutated_at_eq _ _ _ Hbool).
      split; [now apply get_mutated_at_eq|]. split.
      * intros k Hk. now apply get_mutated_at_ne.
      * intros k Hk. now apply get_mutated_at_ne.
Qed.

(** The field-name branch in terms of [push_time_filter]. *)
Lemma queryEsData_context_field_push uri w c field props :
  js_or (Obj.lookup "body" uri) (JObj []) = JObj props ->
  truthy (get (JObj props) "query") = false ->
  Obj.lookup SIMPLE_QUERY uri = JStr field ->
  field <> "" ->
  queryEsData (JObj uri) w c =
    (query <- push_time_filter field (dashboardContext w) ;;
     resolve_aggs_and_search
       (Obj.delete SIMPLE_QUERY (Obj.assign "body" (JObj props) uri))
       (JObj (Obj.assign "query" query props))) w c.
Proof.
  intros Hbody Hq Hf Hne.
  pose proof (queryEsData_context_field uri w c field) as H.
  cbv zeta in H. rewrite Hbody in H. rewrite (H Hq Hf Hne). clear H.
  unfold bind, push_time_filter, bind.
  destruct (dashboardContext w) as [| | | | | |ctx]; try reflexivity.
  cbn [getprop ret]. change (get (JObj ctx) "bool") with (Obj.lookup "bool" ctx).
  destruct (Obj.lookup "bool" ctx) as [| | | | | |b]; try reflexivity.
  cbn [getprop ret]. change (get (JObj b) "must") with (Obj.lookup "must" b).
  destruct (Obj.lookup "must" b) as [| | | | |els|must];
    cbn [getprop ret throw];
    rewrite ?createRangeFilter_timefilter_true; reflexivity.
Qed.

(** The simple-query branch after its two checks, for a [body] that is a
    mapping: the marker key is removed, [body.query] holds the
    dashboard-context document, and the call goes on from there. *)
Lemma queryEsData_after_assignment uri w c props :
  js_or (Obj.lookup "body" uri) (JObj []) = JObj props ->
  truthy (get (JObj props) "query") = false ->
  let uri' := Obj.delete SIMPLE_QUERY (Obj.assign "body" (JObj props) uri) in
  let body' := JObj (Obj.assign "query" (dashboardContext w) props) in
  Obj.has SIMPLE_QUERY uri' = false /\
  get body' "query" = dashboardContext w /\
  (Obj.lookup SIMPLE_QUERY uri = JBool true ->
   queryEsData (JObj uri) w c = resolve_aggs_and_search uri' body' w c) /\
  (forall field, Obj.lookup SIMPLE_QUERY uri = JStr field -> field <> "" ->
     queryEsData (JObj uri) w c =
       (query <- push_time_filter field (get body' "query") ;;
        resolve_aggs_and_search uri' (JObj (Obj.assign "query" query props))) w c).
Proof.
  intros Hbody Hq uri' body'.
  split; [apply ObjFacts.has_delete_eq|]. split; [apply get_assign_eq|]. split.
  - intros Hf. pose proof (queryEsData_context_true uri w c) as H.
    cbv zeta in H. rewrite Hbody in H. rewrite (H Hq Hf). reflexivity.
  - intros field Hf Hne. unfold body'. rewrite get_assign_eq.
    now apply queryEsData_context_field_push.
Qed.

(** C2, amended: when the value under [%context_query%] is truthy,
    [queryEsData] fails with [ConflictingQuery] exactly when [body.query]
    is set (truthy); with [body.query] unset it fails with
    [InvalidContextQueryField] exactly when the marker is neither [true]
    nor a non-empty string; otherwise, for a [body] that is a mapping (or
    the [{}] that stands in for a falsy one), it removes the marker key
    from [uri] and sets [body.query] to the dashboard-context document, and
    goes on from there: with the push of the range filter when the marker
    is a field name, then with the aggregations and the search.  A request
    that reaches the search collaborator has lost the marker key and
    carries the dashboard-context document as [body.query], with the range
    filter on the named field appended to [bool.must] when the marker is a
    field name. *)
Theorem queryEsData_context_query (uri : jobject) (w : World) (c : Cache) :
  let marker := Obj.lookup SIMPLE_QUERY uri in
  let body := js_or (Obj.lookup "body" uri) (JObj []) in
  let outcome := snd (queryEsData (JObj uri) w c) in
  truthy marker = true ->
  (outcome = Err ConflictingQuery <-> truthy (get body "query") = true) /\
  (outcome = Err InvalidContextQueryField <->
     truthy (get body "query") = false /\
     ~ (marker = JBool true \/ exists s, marker = JStr s /\ s <> "")) /\
  (forall props, body = JObj props -> truthy (get body "query") = false ->
     let uri' := Obj.delete SIMPLE_QUERY (Obj.assign "body" body uri) in
     let body' := JObj (Obj.assign "query" (dashboardContext w) props) in
     Obj.has SIMPLE_QUERY uri' = false /\
     get body' "query" = dashboardContext w /\
     (marker = JBool true ->
      queryEsData (JObj uri) w c = resolve_aggs_and_search uri' body' w c) /\
     (forall field, marker = JStr field ->
        queryEsData (JObj uri) w c =
          (query <- push_time_filter field (get body' "query") ;;
           resolve_aggs_and_search uri' (JObj (Obj.assign "query" query props))) w c)) /\
  (forall request, outcome = Ok (EsSearch request) ->
     Obj.has SIMPLE_QUERY (props_of request) = false /\
     let query := get (get request "body") "query" in
     (marker = JBool true -> query = dashboardContext w) /\
     (forall field, marker = JStr field ->
        exists els,
          get (get (dashboardContext w) "bool") "must" = JArr els /\
          get (get query "bool") "must" =
            JArr (els ++ [range_filter field (time_range w c)]) /\
          (forall k, k <> "bool" -> get query k = get (dashboardContext w) k) /\
          (forall k, k <> "must" ->
                     get (get query "bool") k = get (get (dashboardContext w) "bool") k))).
Proof.
  intros marker body outcome Hm.
  destruct (queryEsData_simple_checks uri w c Hm) as (Hconflict & Hinvalid & Hrequest).
  split; [exact Hconflict|]. split; [exact Hinvalid|]. split; [|exact Hrequest].
  intros props Hbody Hq uri' body'. subst uri'. rewrite Hbody in Hq |- *.
  destruct (queryEsData_after_assignment uri w c props Hbody Hq) as (H1 & H2 & H3 & H4).
  split; [exact H1|]. split; [exact H2|]. split; [exact H3|].
  intros field Hf. apply H4; [exact Hf|].
  assert (Hne : truthy (JStr field) = true) by (rewrite <- Hf; exact Hm).
  cbn [truthy] in Hne. apply negb_true_iff in Hne. now apply String.eqb_neq.
Qed.

Lemma queryEsData_context_query_witness :
  let ctx := JObj [("bool", JObj [("must", JArr [JObj [("term", JObj [("a", JNum 1)])]])])] in
  let w := mkWorld (mkBounds 1000 9000) ctx in
  let uri := [(SIMPLE_QUERY, JStr "@timestamp")] in
  truthy (Obj.lookup SIMPLE_QUERY uri) = true /\
  exists request,
    snd (queryEsData (JObj uri) w None) = Ok (EsSearch request) /\
    Obj.has SIMPLE_QUERY (props_of request) = false /\
    get (get (get (get request "body") "query") "bool") "must" =
      JArr [JObj [("term", JObj [("a", JNum 1)])];
            range_filter "@timestamp" (mkBounds 1000 9000)].
Proof.
  intros ctx w uri. split; [reflexivity|].
  destruct (queryEsData_context_query uri w None eq_refl) as (_ & _ & _ & H).
  destruct (snd (queryEsData (JObj uri) w None)) as [[request|u o]|e] eqn:E.
  - exists request. split; [reflexivity|].
    destruct (H request eq_refl) as (Hhas & _ & Hfield).
    split; [exact Hhas|].
    destruct (Hfield "@timestamp" eq_refl) as (els & Hels & Hmust & _).
    rewrite Hmust. injection Hels as <-. reflexivity.
  - exfalso. vm_compute in E. discriminate E.
  - exfalso. vm_compute in E. discriminate E.
Defined.

(** C2 as stated fails, twice.  With [%context_query%] present but falsy
    (here [false]) and [body.query] set, nothing is thrown; the request
    goes to the search collaborator as it came, marker key included.  And
    with the marker [true], no [body.query] and a [body] that is a
    primitive (here [5]), neither check fails, yet [body.query] cannot be
    set: the assignment throws a [TypeError]. *)
Lemma queryEsData_present_marker_counterexample :
  let uri := [(SIMPLE_QUERY, JBool false);
              ("body", JObj [("query", JObj [("match_all", JObj [])])])] in
  let uri' := [(SIMPLE_QUERY, JBool true); ("body", JNum 5)] in
  let w := mkWorld (mkBounds 1000 9000) (JObj [("bool", JObj [("must", JArr [])])]) in
  (Obj.has SIMPLE_QUERY uri = true /\
   truthy (get (Obj.lookup "body" uri) "query") = true /\
   queryEsData (JObj uri) w None = (None, Ok (EsSearch (JObj uri))) /\
   snd (queryEsData (JObj uri) w None) <> Err ConflictingQuery) /\
  (Obj.lookup SIMPLE_QUERY uri' = JBool true /\
   truthy (get (js_or (Obj.lookup "body" uri') (JObj [])) "query") = false /\
   queryEsData (JObj uri') w None = (None, Err TypeError)).
Proof.
  cbv zeta. split.
  - repeat split; try reflexivity. vm_compute. discriminate.
  - repeat split; reflexivity.
Qed.

(** C10: with a field name under [%context_query%] (and no [body.query]),
    [queryEsData] reads [dashboardContext().bool.must] unguarded: it
    succeeds only when the context document is a mapping whose [bool] is a
    mapping whose [must] is a sequence, and it ends in a [TypeError] for
    every other context document, among them a falsy one and one without
    [bool] or without [bool.must]. *)
Theorem queryEsData_field_needs_must (uri : jobject) (w : World) (c : Cache) (field : string) :
  Obj.lookup SIMPLE_QUERY uri = JStr field ->
  field <> "" ->
  truthy (get (js_or (Obj.lookup "body" uri) (JObj [])) "query") = false ->
  let ctx := dashboardContext w in
  let must := get (get ctx "bool") "must" in
  (forall r, snd (queryEsData (JObj uri) w c) = Ok r ->
     exists ctx_props bool_props els,
       ctx = JObj ctx_props /\ get ctx "bool" = JObj bool_props /\ must = JArr els) /\
  ((forall els, must <> JArr els) ->
   snd (queryEsData (JObj uri) w c) = Err TypeError) /\
  (truthy ctx = false \/ get ctx "bool" = JUndefined \/ must = JUndefined ->
   snd (queryEsData (JObj uri) w c) = Err TypeError).
Proof.
  intros Hf Hne Hq ctx must.
  rewrite (queryEsData_context_field uri w c field Hq Hf Hne).
  fold ctx. fold must.
  assert (Hnot : (forall els, must <> JArr els) ->
                 snd match js_or (Obj.lookup "body" uri) (JObj []), must with
                     | JObj props, JArr els =>
                         let must0 := JArr (els ++ [range_filter field (time_range w c)]) in
                         let bool := mutated_at (get ctx "bool") "must" must0 in
                         let query := mutated_at ctx "bool" bool in
                         resolve_aggs_and_search
                           (Obj.delete SIMPLE_QUERY
                              (Obj.assign "body" (js_or (Obj.lookup "body" uri) (JObj [])) uri))
                           (JObj (Obj.assign "query" query props)) w (Some (time_range w c))
                     | JObj props, JUndefined | JObj props, JNull => (c, Err TypeError)
                     | JObj props, _ => (Some (time_range w c), Err TypeError)
                     | _, _ => (c, Err TypeError)
                     end = Err TypeError).
  { intros H. destruct (js_or _ _); try reflexivity.
    destruct must as [| | | | |els|]; try reflexivity. now destruct (H els). }
  split; [|split].
  - intros r Hr.
    destruct must as [| | | | |els|] eqn:Hmust;
      try (rewrite Hnot in Hr by discriminate; discriminate Hr).
    assert (Hbool : get ctx "bool" <> JUndefined).
    { unfold must in Hmust. intros E. rewrite E in Hmust. discriminate Hmust. }
    assert (Hmust' : get (get ctx "bool") "must" <> JUndefined).
    { unfold must in Hmust. rewrite Hmust. discriminate. }
    destruct (get_defined_obj _ _ Hbool) as [ctx_props Hctx].
    destruct (get_defined_obj _ _ Hmust') as [bool_props Hb].
    exists ctx_props, bool_props, els. auto.
  - exact Hnot.
  - intros H. apply Hnot. intros els Hels.
    assert (Hbool : get ctx "bool" <> JUndefined).
    { unfold must in Hels. intros E. rewrite E in Hels. discriminate Hels. }
    destruct (get_defined_obj _ _ Hbool) as [ctx_props Hctx].
    destruct H as [H|[H|H]].
    + rewrite Hctx in H. discriminate H.
    + contradiction.
    + rewrite Hels in H. discriminate H.
Qed.

Lemma queryEsData_field_needs_must_witness :
  let uri := [(SIMPLE_QUERY, JStr "@timestamp")] in
  let w := mkWorld (mkBounds 1000 9000) (JObj [("bool", JObj [])]) in
  snd (queryEsData (JObj uri) w None) = Err TypeError.
Proof.
  intros uri w.
  assert (Hne : "@timestamp" <> "") by discriminate.
  apply (queryEsData_field_needs_must uri w None "@timestamp" eq_refl Hne eq_refl).
  right. right. reflexivity.
Defined.

(** ** [loader.load] *)

Lemma queryEsData_searches uri w c r :
  snd (queryEsData uri w c) = Ok r -> exists request, r = EsSearch request.
Proof.
  unfold queryEsData. destruct uri; try discriminate.
  unfold bind at 1.
  match goal with |- context [match ?m w c with _ => _ end] =>
    destruct (m w c) as [c1 [st|e]]; [|discriminate] end.
  unfold bind. destruct (injectQueryContextVars _ false w c1) as [c2 [aggs|e]];
    [|discriminate].
  cbn [ret snd]. intros [= <-]. eauto.
Qed.

Lemma load_eq enableExternalUrls uri opts w c :
  load enableExternalUrls uri (JObj opts) w c =
    if String.eqb (typeof uri) "object" then
      if strict_eq_str (Obj.lookup "context" opts) "dataflow" then queryEsData uri w c
      else (c, Err UnexpectedUrlObject)
    else if negb enableExternalUrls then (c, Err ExternalUrlsDisabled)
    else (c, Ok (DefaultLoad uri (JObj opts))).
Proof.
  unfold load. destruct (String.eqb (typeof uri) "object").
  - unfold bind. cbn [getprop ret]. unfold get. cbn [props_of].
    now destruct (strict_eq_str _ _).
  - now destruct enableExternalUrls.
Qed.

(** C9: [load] hands an object to [queryEsData] exactly when
    [options.context] is ["dataflow"], and fails with
    [UnexpectedUrlObject] for an object with any other context; a URL
    string goes to the default loader exactly when external URLs are
    enabled, and fails with [ExternalUrlsDisabled] otherwise.  What
    [queryEsData] produces is never one of the other outcomes. *)
Theorem load_dispatch (enableExternalUrls : bool) (uri : value) (opts : jobject)
  (w : World) (c : Cache) :
  (typeof uri = "object" -> Obj.lookup "context" opts = JStr "dataflow" ->
   load enableExternalUrls uri (JObj opts) w c = queryEsData uri w c) /\
  (typeof uri = "object" -> Obj.lookup "context" opts <> JStr "dataflow" ->
   load enableExternalUrls uri (JObj opts) w c = (c, Err UnexpectedUrlObject)) /\
  (forall url, uri = JStr url ->
     (enableExternalUrls = true ->
      load enableExternalUrls uri (JObj opts) w c = (c, Ok (DefaultLoad uri (JObj opts)))) /\
     (enableExternalUrls = false ->
      load enableExternalUrls uri (JObj opts) w c = (c, Err ExternalUrlsDisabled))) /\
  (snd (queryEsData uri w c) <> Err UnexpectedUrlObject /\
   snd (queryEsData uri w c) <> Err ExternalUrlsDisabled /\
   forall uri' opts', snd (queryEsData uri w c) <> Ok (DefaultLoad uri' opts')).
Proof.
  split; [|split; [|split]].
  - intros Hobj Hctx. rewrite load_eq, Hobj, Hctx. reflexivity.
  - intros Hobj Hctx. rewrite load_eq, Hobj. cbn [String.eqb Ascii.eqb Bool.eqb].
    destruct (strict_eq_str (Obj.lookup "context" opts) "dataflow") eqn:E; [|reflexivity].
    destruct (Obj.lookup "context" opts) as [| | | |s| |]; try discriminate E.
    apply String.eqb_eq in E. subst s. now destruct Hctx.
  - intros url ->. split; intros ->; reflexivity.
  - destruct (sound_queryEsData uri w c) as (_ & He & _).
    repeat split.
    + intros H. apply He in H. discriminate H.
    + intros H. apply He in H. discriminate H.
    + intros uri' opts' H. apply queryEsData_searches in H as [request H].
      discriminate H.
Qed.

Lemma load_dispatch_witness :
  let w := mkWorld (mkBounds 1000 9000) JNull in
  load true (JObj [("index", JStr "logs")]) (JObj [("context", JStr "dataflow")]) w None =
    (None, Ok (EsSearch (JObj [("index", JStr "logs"); ("body", JObj [])]))) /\
  load true (JObj [("index", JStr "logs")]) (JObj [("context", JStr "other")]) w None =
    (None, Err UnexpectedUrlObject) /\
  load false (JStr "http://example.org/data.json") (JObj []) w None =
    (None, Err ExternalUrlsDisabled).
Proof.
  intros w. split; [|split].
  - rewrite (proj1 (load_dispatch true (JObj [("index", JStr "logs")])
                      [("context", JStr "dataflow")] w None) eq_refl eq_refl).
    reflexivity.
  - apply (proj1 (proj2 (load_dispatch true (JObj [("index", JStr "logs")])
                           [("context", JStr "other")] w None)) eq_refl).
    discriminate.
  - apply (proj1 (proj2 (proj2 (load_dispatch false (JStr "http://example.org/data.json")
                                  [] w None))) "http://example.org/data.json" eq_refl).
    reflexivity.
Defined.

(** * Further properties of the loader *)

(** ** [roundInterval] is monotone *)

(** X1: a longer duration never gets a shorter bucket: [roundInterval] is
    non-decreasing in the length of the interval it names, on all numbers
    (negative ones get the shortest bucket). *)
Theorem roundInterval_monotone (a b : Q) :
  (a <= b)%Q ->
  (interval_millis (roundInterval a) <= interval_millis (roundInterval b))%Q.
Proof.
  intros Hab. unfold roundInterval.
  round_cases; try (exfalso; lra); vm_compute; discriminate.
Qed.

Lemma roundInterval_monotone_witness :
  (interval_millis (roundInterval 160) <= interval_millis (roundInterval 7000000))%Q.
Proof.
  apply roundInterval_monotone. unfold Qle. simpl. lia.
Defined.

(** X2: between the first and the last threshold the bucket stays within
    a constant factor of the duration asked for: for
    [500 < ms < 3628800000] the interval named by [roundInterval ms] is
    at least [ms / 7] and less than [2 * ms] long. *)
Theorem roundInterval_within_factor (ms : Q) :
  (500 < ms)%Q -> (ms < 3628800000)%Q ->
  (ms <= 7 * interval_millis (roundInterval ms))%Q /\
  (interval_millis (roundInterval ms) < 2 * ms)%Q.
Proof.
  intros Hlo Hhi. unfold roundInterval.
  round_cases; try (exfalso; lra);
    match goal with
    | |- context [interval_millis ?s] =>
        let v := eval vm_compute in (interval_millis s) in
        change (interval_millis s) with v
    end; split; lra.
Qed.

Lemma roundInterval_within_factor_witness :
  (160000 <= 7 * interval_millis (roundInterval 160000))%Q /\
  (interval_millis (roundInterval 160000) < 2 * 160000)%Q.
Proof.
  apply roundInterval_within_factor; unfold Qlt; simpl; lia.
Defined.

(** ** [getTimeBound] and [createRangeFilter]: failures and the width of
    the range *)

(** X3: [getTimeBound] consults the time range before it looks at
    [opts], so [_timeBounds] is set even when it throws; it throws nothing
    but [InvalidShift] and [UnknownUnit]; and with a falsy [shift] (absent,
    [0], [null], [false], the empty string) it returns the bound as it is,
    without looking at [unit]. *)
Theorem getTimeBound_outcome (opts : jobject) (type : bound_type) (w : World) (c : Cache) :
  fst (getTimeBound opts type w c) = Some (time_range w c) /\
  (forall e, snd (getTimeBound opts type w c) = Err e ->
             truthy (Obj.lookup "shift" opts) = true /\
             (e = InvalidShift \/ e = UnknownUnit)) /\
  (truthy (Obj.lookup "shift" opts) = false ->
   snd (getTimeBound opts type w c) = Ok (bound_of (time_range w c) type)).
Proof.
  rewrite getTimeBound_eq. cbn [fst snd]. split; [reflexivity|]. split.
  - intros e. destruct (truthy _); [|discriminate].
    destruct (Obj.lookup "shift" opts); try (intros [= <-]; auto).
    destruct (unit_multiplier _); [discriminate|]. intros [= <-]. auto.
  - intros ->. reflexivity.
Qed.

Lemma getTimeBound_outcome_witness :
  snd (getTimeBound [("shift", JNum 0); ("unit", JStr "parsec")] Max
         (mkWorld (mkBounds 1000 9000) JNull) None) = Ok 9000%Q.
Proof.
  apply (proj2 (proj2 (getTimeBound_outcome
                         [("shift", JNum 0); ("unit", JStr "parsec")] Max
                         (mkWorld (mkBounds 1000 9000) JNull) None))).
  reflexivity.
Defined.

(** [createRangeFilter] in terms of the two bounds it resolves. *)
Lemma createRangeFilter_eq obj w c :
  createRangeFilter obj w c =
    (Some (time_range w c),
     match snd (getTimeBound obj Min w c), snd (getTimeBound obj Max w c) with
     | Ok gte, Ok lte =>
         Ok (Obj.delete "unit"
               (Obj.delete "shift"
                  (Obj.delete TIMEFILTER
                     (Obj.assign "format" (JStr "epoch_millis")
                        (Obj.assign "lte" (JNum lte)
                           (Obj.assign "gte" (JNum gte) obj))))))
     | Err e, _ => Err e
     | Ok _, Err e => Err e
     end).
Proof.
  unfold createRangeFilter, bind.
  pose proof (getTimeBound_cache obj Min w c) as Hc.
  destruct (getTimeBound obj Min w c) as [c1 [gte|e]]; cbn [fst snd] in *; subst c1;
    [|reflexivity].
  pose proof (getTimeBound_assign_gte obj (JNum gte) Max w (Some (time_range w c))) as E.
  rewrite (getTimeBound_time_range_filled obj) in E.
  pose proof (getTimeBound_cache (Obj.assign "gte" (JNum gte) obj) Max w
                (Some (time_range w c))) as Hc.
  destruct (getTimeBound (Obj.assign "gte" (JNum gte) obj) Max w _) as [c2 r2].
  cbn [fst snd] in *. subst c2 r2.
  destruct (snd (getTimeBound obj Max w c)); reflexivity.
Qed.

(** X4: a range filter keeps the order and the width of the time range
    under a shift: when [createRangeFilter] returns, [gte <= lte] as soon
    as [min <= max] in the time range in effect; and where both bounds are
    shifted without rounding (no shift, or bounds, shift, product and sums
    safe integers) [lte - gte] equals [max - min]. *)
Theorem createRangeFilter_width (obj : jobject) (w : World) (c : Cache) (r : jobject) :
  snd (createRangeFilter obj w c) = Ok r ->
  exists gte lte,
    Obj.lookup "gte" r = JNum gte /\
    Obj.lookup "lte" r = JNum lte /\
    ((b_min (time_range w c) <= b_max (time_range w c))%Q -> (gte <= lte)%Q) /\
    (truthy (Obj.lookup "shift" obj) = false \/
     (exists shift ms,
         Obj.lookup "shift" obj = JNum shift /\
         unit_multiplier (js_or (Obj.lookup "unit" obj) (JStr "d")) = Some ms /\
         shift_exact (b_min (time_range w c)) shift ms = true /\
         shift_exact (b_max (time_range w c)) shift ms = true) ->
     (lte - gte == b_max (time_range w c) - b_min (time_range w c))%Q).
Proof.
  rewrite createRangeFilter_eq. cbn [snd]. rewrite !getTimeBound_eq. cbn [snd].
  intros H.
  assert (Hlook : forall gte lte,
             let r' := Obj.delete "unit" (Obj.delete "shift" (Obj.delete TIMEFILTER
                         (Obj.assign "format" (JStr "epoch_millis")
                            (Obj.assign "lte" (JNum lte)
                               (Obj.assign "gte" (JNum gte) obj))))) in
             Obj.lookup "gte" r' = JNum gte /\ Obj.lookup "lte" r' = JNum lte).
  { intros gte lte r'. unfold r'. split.
    - rewrite !ObjFacts.lookup_delete_ne, !ObjFacts.lookup_assign_ne by discriminate.
      apply ObjFacts.lookup_assign_eq.
    - rewrite !ObjFacts.lookup_delete_ne, !ObjFacts.lookup_assign_ne by discriminate.
      apply ObjFacts.lookup_assign_eq. }
  destruct (truthy (Obj.lookup "shift" obj)).
  - destruct (Obj.lookup "shift" obj) as [| | |shift| | |]; try discriminate H.
    destruct (unit_multiplier _) as [m|]; [|discriminate H].
    injection H as <-. destruct (Hlook (b_min (time_range w c) + shift * m)%Q
                                   (b_max (time_range w c) + shift * m)%Q) as [Hg Hl].
    eexists _, _. split; [exact Hg|]. split; [exact Hl|].
    cbn [bound_of]. split; [intros Hle; lra | intros _; ring].
  - injection H as <-. destruct (Hlook (b_min (time_range w c))
                                   (b_max (time_range w c))) as [Hg Hl].
    eexists _, _. split; [exact Hg|]. split; [exact Hl|].
    cbn [bound_of]. split; [auto | intros _; reflexivity].
Qed.

Lemma createRangeFilter_width_witness :
  let obj := [(TIMEFILTER, JBool true); ("shift", JNum (-2)); ("unit", JStr "week")] in
  let w := mkWorld (mkBounds 1000 9000) JNull in
  exists r gte lte,
    snd (createRangeFilter obj w None) = Ok r /\
    Obj.lookup "gte" r = JNum gte /\ Obj.lookup "lte" r = JNum lte /\
    (gte <= lte)%Q /\ (lte - gte == 9000 - 1000)%Q.
Proof.
  intros obj w.
  destruct (snd (createRangeFilter obj w None)) as [r|e] eqn:E.
  - destruct (createRangeFilter_width obj w None r E) as (gte & lte & Hg & Hl & Hord & Hw).
    exists r, gte, lte. split; [reflexivity|]. split; [exact Hg|]. split; [exact Hl|].
    split.
    + apply Hord. unfold Qle. simpl. lia.
    + apply Hw. right. exists (-2)%Q, 604800000%Q.
      repeat split; vm_compute; reflexivity.
  - exfalso. vm_compute in E. discriminate E.
Defined.

(** ** What the tree walker raises and what it keeps *)

(** X5: the tree walker raises nothing but the four validation errors of
    the placeholders; in particular no [TypeError], whatever the shape of
    the document and of the dashboard context. *)
Theorem injectQueryContextVars_raises (obj : value) (isQuery : bool) (w : World) (c : Cache)
  (e : error) :
  snd (injectQueryContextVars obj isQuery w c) = Err e ->
  e = InvalidShift \/ e = UnknownUnit \/ e = InvalidAutoInterval \/
  e = InvalidTimefilterValue.
Proof.
  intros H. destruct (sound_injectQueryContextVars obj isQuery w c) as (_ & He & _).
  apply He in H. destruct e; try discriminate H; auto.
Qed.

Lemma injectQueryContextVars_raises_witness :
  let doc := JObj [("range", JObj [(TIMEFILTER, JStr "soon")])] in
  let w := mkWorld (mkBounds 1000 9000) JNull in
  exists e,
    snd (injectQueryContextVars doc true w None) = Err e /\
    (e = InvalidShift \/ e = UnknownUnit \/ e = InvalidAutoInterval \/
     e = InvalidTimefilterValue).
Proof.
  intros doc w. exists InvalidTimefilterValue. split; [reflexivity|].
  apply (injectQueryContextVars_raises doc true w None). reflexivity.
Defined.

Lemma props_loop_keys walk obj props :
  forall w c c' r,
    props_loop walk obj props w c = (c', Ok r) -> Obj.keys r = Obj.keys props.
Proof.
  induction props as [|[prop subObj] props IH]; intros w c c' r; cbn [props_loop].
  - intros [= _ <-]. reflexivity.
  - unfold bind.
    destruct (walk_prop walk obj prop subObj w c) as [c1 [v|e]]; [|discriminate].
    destruct (props_loop walk obj props w c1) as [c2 [rest|e]] eqn:E; [|discriminate].
    intros [= _ <-]. cbn. f_equal. exact (IH w c1 c2 rest E).
Qed.

(** X6: the walker keeps the shape of what it walks: a mapping comes back
    as a mapping with the same keys in the same order, a sequence as a
    sequence, and anything else ([null], [undefined], a scalar) as it
    is, with the cache untouched. *)
Theorem injectQueryContextVars_shape (obj : value) (isQuery : bool) (w : World) (c c' : Cache)
  (r : value) :
  injectQueryContextVars obj isQuery w c = (c', Ok r) ->
  match obj with
  | JObj props => exists props', r = JObj props' /\ Obj.keys props' = Obj.keys props
  | JArr _ => exists items', r = JArr items'
  | _ => r = obj /\ c' = c
  end.
Proof.
  destruct obj as [| | | | |items|props]; try (intros [= <- <-]; auto).
  - rewrite injectQueryContextVars_arr. unfold bind.
    destruct (array_loop _ _ _ _ _ _) as [c1 [items'|e]]; [|discriminate].
    intros [= _ <-]. eauto.
  - rewrite injectQueryContextVars_obj. unfold bind.
    destruct (props_loop _ _ _ _ _) as [c1 [props'|e]] eqn:E; [|discriminate].
    intros [= _ <-]. exists props'. split; [reflexivity|].
    exact (props_loop_keys _ _ _ _ _ _ _ E).
Qed.

Lemma injectQueryContextVars_shape_witness :
  let doc := JObj [("interval", JObj [(AUTOINTERVAL, JNum 10)]); ("field", JStr "t")] in
  let w := mkWorld (mkBounds 1000 9000) JNull in
  exists props', snd (injectQueryContextVars doc false w None) = Ok (JObj props') /\
                 Obj.keys props' = ["interval"; "field"].
Proof.
  intros doc w.
  destruct (injectQueryContextVars doc false w None) as [c' [r|e]] eqn:E.
  - destruct (injectQueryContextVars_shape doc false w None c' r E) as (props' & -> & Hk).
    exists props'. split; [reflexivity | exact Hk].
  - exfalso. vm_compute in E. discriminate E.
Defined.

(** With [isQuery = false] the array loop only recurses. *)
Lemma array_loop_not_query walk rest :
  forall done w c c' l,
    array_loop walk false done rest w c = (c', Ok l) ->
    exists rest',
      l = done ++ rest' /\
      Forall2 (fun item item' => exists c1 c2, walk item w c1 = (c2, Ok item')) rest rest'.
Proof.
  induction rest as [|item rest IH]; intros done w c c' l; cbn [array_loop andb].
  - intros [= _ <-]. exists []. split; [now rewrite app_nil_r | constructor].
  - unfold bind. destruct (walk item w c) as [c1 [item'|e]] eqn:E; [|discriminate].
    intros H. apply IH in H as (rest' & -> & Hall).
    exists (item' :: rest'). split; [now rewrite <- app_assoc|].
    constructor; eauto.
Qed.

(** X7: in an aggregation ([isQuery = false]) clause markers are ordinary
    strings: the walk of a sequence keeps its length, and an element that
    is a clause marker stays where it is. *)
Theorem injectQueryContextVars_aggs_array (items : list value) (w : World) (c c' : Cache)
  (r : value) :
  injectQueryContextVars (JArr items) false w c = (c', Ok r) ->
  exists items',
    r = JArr items' /\
    length items' = length items /\
    forall i, is_clause_marker (nth i items JUndefined) = true ->
              nth i items' JUndefined = nth i items JUndefined.
Proof.
  rewrite injectQueryContextVars_arr. unfold bind.
  destruct (array_loop _ _ _ _ _ _) as [c1 [l|e]] eqn:E; [|discriminate].
  intros [= _ <-]. apply array_loop_not_query in E as (items' & -> & Hall).
  exists items'. cbn [app]. split; [reflexivity|].
  split; [symmetry; eapply Forall2_length; exact Hall|].
  clear c c1. induction Hall as [|item item' rest rest' Hhd _ IH]; intros i Hi.
  - reflexivity.
  - destruct i as [|i]; cbn [nth] in *.
    + destruct Hhd as (c1 & c2 & Hw).
      destruct item as [| | | |s| |]; try discriminate Hi.
      cbn in Hw. now injection Hw as _ <-.
    + now apply IH.
Qed.

Lemma injectQueryContextVars_aggs_array_witness :
  let w := mkWorld (mkBounds 1000 9000) (JObj [("bool", JObj [("must", JArr [])])]) in
  let items := [JStr MUST_CLAUSE; JObj [("since", JObj [(TIMEFILTER, JStr "min")])]] in
  exists items',
    snd (injectQueryContextVars (JArr items) false w None) = Ok (JArr items') /\
    length items' = 2 /\ nth 0 items' JUndefined = JStr MUST_CLAUSE.
Proof.
  intros w items.
  destruct (injectQueryContextVars (JArr items) false w None) as [c' [r|e]] eqn:E.
  - destruct (injectQueryContextVars_aggs_array items w None c' r E)
      as (items' & -> & Hlen & Hmark).
    exists items'. split; [reflexivity|]. split; [exact Hlen|].
    apply (Hmark 0). reflexivity.
  - exfalso. vm_compute in E. discriminate E.
Defined.

(** ** Aggregations do not depend on the dashboard context *)

Section ContextFree.
Context {A B : Type}.

Lemma context_free_ret (a : A) : context_free (ret a).
Proof. intros w w' c _. reflexivity. Qed.

Lemma context_free_throw (e : error) : context_free (@throw A e).
Proof. intros w w' c _. reflexivity. Qed.

Lemma context_free_bind (m : M A) (k : A -> M B) :
  context_free m -> (forall a, context_free (k a)) -> context_free (bind m k).
Proof.
  intros Hm Hk w w' c Hw. unfold bind. rewrite (Hm w w' c Hw).
  destruct (m w' c) as [c1 [a|e]]; [|reflexivity]. now apply Hk.
Qed.
End ContextFree.

Lemma context_free_getTimeRange : context_free getTimeRange.
Proof. intros w w' c Hw. unfold getTimeRange. now rewrite Hw. Qed.

(** Splits a goal [context_free m] along the structure of [m]. *)
Ltac context_free_step :=
  match goal with
  | |- context_free (bind _ _) => apply context_free_bind; [|intros ?]
  | |- context_free (ret _) => apply context_free_ret
  | |- context_free (throw _) => apply context_free_throw
  | |- context_free getTimeRange => apply context_free_getTimeRange
  | |- context_free (if ?b then _ else _) => destruct b
  | |- context_free (match ?v with _ => _ end) => destruct v
  | |- context_free (let _ := _ in _) => cbv zeta
  end.

Lemma context_free_getTimeBound opts type : context_free (getTimeBound opts type).
Proof. unfold getTimeBound. repeat context_free_step. Qed.

Lemma context_free_createRangeFilter obj : context_free (createRangeFilter obj).
Proof.
  unfold createRangeFilter.
  repeat first [apply context_free_getTimeBound | context_free_step].
Qed.

Section ContextFreeLoops.
Variable walk : value -> M value.

Lemma context_free_array_loop rest :
  Forall (fun item => context_free (walk item)) rest ->
  forall done, context_free (array_loop walk false done rest).
Proof.
  induction 1 as [|item rest Hitem _ IH]; intros done; cbn [array_loop andb].
  - apply context_free_ret.
  - apply context_free_bind; [exact Hitem | intros; apply IH].
Qed.

Lemma context_free_walk_prop obj prop subObj :
  context_free (walk subObj) -> context_free (walk_prop walk obj prop subObj).
Proof.
  intros Hsub. unfold walk_prop.
  repeat first [exact Hsub | apply context_free_getTimeBound
               | apply context_free_createRangeFilter | context_free_step].
Qed.

Lemma context_free_props_loop obj props :
  Forall (fun kv => context_free (walk (snd kv))) props ->
  context_free (props_loop walk obj props).
Proof.
  induction 1 as [|[prop subObj] props Hsub _ IH]; cbn [props_loop].
  - apply context_free_ret.
  - repeat first [exact IH | now apply context_free_walk_prop | context_free_step].
Qed.
End ContextFreeLoops.

Lemma context_free_injectQueryContextVars obj :
  context_free (injectQueryContextVars obj false).
Proof.
  induction obj as [| | | | |items IH|props IH] using value_ind';
    try apply context_free_ret.
  - rewrite injectQueryContextVars_arr.
    apply context_free_bind; [now apply context_free_array_loop | intros; apply context_free_ret].
  - rewrite injectQueryContextVars_obj.
    apply context_free_bind; [now apply context_free_props_loop | intros; apply context_free_ret].
Qed.

(** X8: with [isQuery = false] the walker never consults the dashboard
    context: two worlds with the same time range give the same run, result
    and cache, whatever their dashboard contexts are. *)
Theorem injectQueryContextVars_aggs_context_free (obj : value) (w w' : World) (c : Cache) :
  timefilter_getBounds w = timefilter_getBounds w' ->
  injectQueryContextVars obj false w c = injectQueryContextVars obj false w' c.
Proof. intros Hw. now apply context_free_injectQueryContextVars. Qed.

Lemma injectQueryContextVars_aggs_context_free_witness :
  let doc := JArr [JStr MUST_CLAUSE; JObj [("since", JObj [(TIMEFILTER, JStr "min")])]] in
  injectQueryContextVars doc false (mkWorld (mkBounds 1000 9000) JNull) None =
  injectQueryContextVars doc false
    (mkWorld (mkBounds 1000 9000) (JObj [("bool", JObj [("must", JArr [JNum 1])])])) None.
Proof.
  intros doc. apply injectQueryContextVars_aggs_context_free. reflexivity.
Defined.

(** ** [%timefilter%] *)

Lemma getTimeBound_snd_time_range opts type w c c1 :
  time_range w c1 = time_range w c ->
  snd (getTimeBound opts type w c1) = snd (getTimeBound opts type w c).
Proof. intros H. rewrite !getTimeBound_eq. cbn [snd]. now rewrite H. Qed.

Lemma createRangeFilter_snd_time_range obj w c c1 :
  time_range w c1 = time_range w c ->
  snd (createRangeFilter obj w c1) = snd (createRangeFilter obj w c).
Proof.
  intros H. rewrite !createRangeFilter_eq. cbn [snd].
  now rewrite !(getTimeBound_snd_time_range obj _ w c c1 H).
Qed.

(** The rule for [%timefilter%] (lines 94-110), once the rule for
    [interval] does not apply. *)
Lemma walk_prop_timefilter walk obj prop subObj w c :
  typeof obj = "object" ->
  get subObj TIMEFILTER <> JUndefined ->
  prop <> "interval" \/ truthy (get subObj AUTOINTERVAL) = false ->
  walk_prop walk obj prop subObj w c =
    match get subObj TIMEFILTER with
    | JStr type =>
        if String.eqb type "min" then
          match getTimeBound (props_of subObj) Min w c with
          | (c', Ok t) => (c', Ok (JNum t))
          | (c', Err e) => (c', Err e)
          end
        else if String.eqb type "max" then
          match getTimeBound (props_of subObj) Max w c with
          | (c', Ok t) => (c', Ok (JNum t))
          | (c', Err e) => (c', Err e)
          end
        else (c, Err InvalidTimefilterValue)
    | JBool true =>
        match createRangeFilter (props_of subObj) w c with
        | (c', Ok range) => (c', Ok (JObj range))
        | (c', Err e) => (c', Err e)
        end
    | _ => (c, Err InvalidTimefilterValue)
    end.
Proof.
  intros Hobj Htf Hrule. unfold walk_prop.
  destruct (get_defined_obj _ _ Htf) as [o ->].
  rewrite Hobj. cbn [truthy negb orb String.eqb Ascii.eqb Bool.eqb].
  assert (Hcond : String.eqb prop "interval" && truthy (get (JObj o) AUTOINTERVAL) = false).
  { destruct Hrule as [H|H].
    - apply String.eqb_neq in H. now rewrite H.
    - rewrite H. apply andb_false_r. }
  rewrite Hcond.
  destruct (get (JObj o) TIMEFILTER) as [| |[|]| |type| |]; try reflexivity.
  - now destruct Htf.
  - destruct (String.eqb type "min"); [reflexivity|].
    destruct (String.eqb type "max"); reflexivity.
Qed.

Lemma props_loop_timefilter walk obj :
  typeof obj = "object" ->
  (forall v, sound walker_error (walk v)) ->
  forall props k w c c' r,
    get (Obj.lookup k props) TIMEFILTER <> JUndefined ->
    k <> "interval" \/ truthy (get (Obj.lookup k props) AUTOINTERVAL) = false ->
    props_loop walk obj props w c = (c', Ok r) ->
    (exists type t,
        (type = Min /\ get (Obj.lookup k props) TIMEFILTER = JStr "min" \/
         type = Max /\ get (Obj.lookup k props) TIMEFILTER = JStr "max") /\
        snd (getTimeBound (props_of (Obj.lookup k props)) type w c) = Ok t /\
        Obj.lookup k r = JNum t) \/
    (exists range,
        get (Obj.lookup k props) TIMEFILTER = JBool true /\
        snd (createRangeFilter (props_of (Obj.lookup k props)) w c) = Ok range /\
        Obj.lookup k r = JObj range).
Proof.
  intros Hobj Hwalk props.
  induction props as [|[prop subObj] props IH]; intros k w c c' r Htf Hrule Hrun.
  - now destruct Htf.
  - cbn [props_loop] in Hrun. unfold bind in Hrun.
    cbn [Obj.lookup] in Htf, Hrule |- *.
    destruct (String.eqb k prop) eqn:E.
    + apply String.eqb_eq in E. subst prop.
      rewrite (walk_prop_timefilter walk obj k subObj w c Hobj Htf Hrule) in Hrun.
      destruct (get subObj TIMEFILTER) as [| |[|]| |type| |]; try discriminate Hrun.
      * right.
        destruct (createRangeFilter (props_of subObj) w c) as [c1 [range|e]] eqn:Ec;
          [|discriminate].
        destruct (props_loop walk obj props w c1) as [c2 [rest|e]]; [|discriminate].
        injection Hrun as _ <-. exists range. cbn [Obj.lookup snd].
        now rewrite String.eqb_refl.
      * left.
        destruct (String.eqb type "min") eqn:Emin;
          [|destruct (String.eqb type "max") eqn:Emax; [|discriminate]].
        -- apply String.eqb_eq in Emin. subst type.
           destruct (getTimeBound (props_of subObj) Min w c) as [c1 [t|e]] eqn:Et;
             [|discriminate].
           destruct (props_loop walk obj props w c1) as [c2 [rest|e]]; [|discriminate].
           injection Hrun as _ <-. exists Min, t. rewrite Et. cbn [Obj.lookup snd].
           rewrite String.eqb_refl. auto.
        -- apply String.eqb_eq in Emax. subst type.
           destruct (getTimeBound (props_of subObj) Max w c) as [c1 [t|e]] eqn:Et;
             [|discriminate].
           destruct (props_loop walk obj props w c1) as [c2 [rest|e]]; [|discriminate].
           injection Hrun as _ <-. exists Max, t. rewrite Et. cbn [Obj.lookup snd].
           rewrite String.eqb_refl. auto.
    + destruct (sound_walk_prop walk obj prop subObj (Hwalk subObj) w c) as (Hc & _).
      destruct (walk_prop walk obj prop subObj w c) as [c1 [v|e]]; [|discriminate].
      cbn [fst] in Hc. apply time_range_after in Hc.
      destruct (props_loop walk obj props w c1) as [c2 [rest|e]] eqn:Erest; [|discriminate].
      injection Hrun as _ <-. cbn [Obj.lookup]. rewrite E.
      destruct (IH k w c1 c2 rest Htf Hrule Erest)
        as [(type & t & Hty & Ht & Hr)|(range & Hty & Hrg & Hr)].
      * left. exists type, t. rewrite <- (getTimeBound_snd_time_range _ _ w c c1 Hc). auto.
      * right. exists range.
        rewrite <- (createRangeFilter_snd_time_range _ w c c1 Hc). auto.
Qed.

(** X9: the rule for [%timefilter%].  Under a key whose value carries
    [%timefilter%] (and that the [interval] rule does not take), a walk of
    the mapping that succeeds has put there the resolved time bound, a
    number, for ["min"] and ["max"], and the range filter built from the
    value for [true]; for any other value of [%timefilter%] the walk
    fails. *)
Theorem timefilter_resolved (props : jobject) (k : string) (isQuery : bool)
  (w : World) (c : Cache) :
  let subObj := Obj.lookup k props in
  let marker := get subObj TIMEFILTER in
  marker <> JUndefined ->
  k <> "interval" \/ truthy (get subObj AUTOINTERVAL) = false ->
  (forall c' r,
     injectQueryContextVars (JObj props) isQuery w c = (c', Ok r) ->
     (exists type t,
         (type = Min /\ marker = JStr "min" \/ type = Max /\ marker = JStr "max") /\
         snd (getTimeBound (props_of subObj) type w c) = Ok t /\
         get r k = JNum t) \/
     (exists range,
         marker = JBool true /\
         snd (createRangeFilter (props_of subObj) w c) = Ok range /\
         get r k = JObj range)) /\
  (marker <> JStr "min" -> marker <> JStr "max" -> marker <> JBool true ->
   exists e, snd (injectQueryContextVars (JObj props) isQuery w c) = Err e).
Proof.
  intros subObj marker Htf Hrule.
  assert (Hrun : forall c' r,
             injectQueryContextVars (JObj props) isQuery w c = (c', Ok r) ->
             (exists type t,
                 (type = Min /\ marker = JStr "min" \/ type = Max /\ marker = JStr "max") /\
                 snd (getTimeBound (props_of subObj) type w c) = Ok t /\
                 get r k = JNum t) \/
             (exists range,
                 marker = JBool true /\
                 snd (createRangeFilter (props_of subObj) w c) = Ok range /\
                 get r k = JObj range)).
  { intros c' r. rewrite injectQueryContextVars_obj. unfold bind.
    destruct (props_loop _ _ props w c) as [c1 [props'|e]] eqn:E; [|discriminate].
    intros [= _ <-].
    apply (props_loop_timefilter _ (JObj props) eq_refl
             (fun v => sound_injectQueryContextVars v isQuery) props k w c c1 props'
             Htf Hrule E). }
  split; [exact Hrun|].
  intros Hmin Hmax Htrue.
  destruct (injectQueryContextVars (JObj props) isQuery w c) as [c' [r|e]] eqn:E.
  - destruct (Hrun c' r eq_refl) as [(type & t & [[_ H]|[_ H]] & _)|(range & H & _)];
      contradiction.
  - now exists e.
Qed.

Lemma timefilter_resolved_witness :
  let props := [("gte", JObj [(TIMEFILTER, JStr "min"); ("shift", JNum (-1)); ("unit", JStr "h")])] in
  let w := mkWorld (mkBounds 1000 9000) JNull in
  exists r t,
    snd (injectQueryContextVars (JObj props) true w None) = Ok r /\
    get r "gte" = JNum t /\ (t == 1000 - 3600000)%Q.
Proof.
  intros props w.
  assert (Htf : get (Obj.lookup "gte" props) TIMEFILTER <> JUndefined) by discriminate.
  assert (Hrule : "gte" <> "interval" \/
                  truthy (get (Obj.lookup "gte" props) AUTOINTERVAL) = false)
    by (right; reflexivity).
  destruct (timefilter_resolved props "gte" true w None Htf Hrule) as [H _].
  destruct (injectQueryContextVars (JObj props) true w None) as [c' [r|e]] eqn:E.
  - destruct (H c' r eq_refl) as [(type & t & [[-> _]|[_ Hmax]] & Ht & Hr)|(range & Hb & _)].
    + exists r, t. split; [reflexivity|]. split; [exact Hr|].
      vm_compute in Ht. injection Ht as <-. reflexivity.
    + discriminate Hmax.
    + discriminate Hb.
  - exfalso. vm_compute in E. discriminate E.
Defined.

(** ** The array loop: termination and composition *)

Section ArrayLoopFacts.
Variable walk : value -> M value.
Variable isQuery : bool.

(** X10: the cursor loop of the source terminates: started at a cursor
    [pos] inside the array, after [obj.length - pos] iterations the cursor
    is at the end of the (possibly longer or shorter) array, further
    iterations change nothing, and what was before the cursor is as it
    was. *)
Theorem cursor_loop_completes (obj : list value) (pos : nat) (w : World) (c c' : Cache)
  (obj' : list value) (pos' : nat) :
  pos <= length obj ->
  cursor_loop walk isQuery (length obj - pos) obj pos w c = (c', Ok (obj', pos')) ->
  pos' = length obj' /\
  take pos obj' = take pos obj /\
  (forall n w' c'', cursor_loop walk isQuery n obj' pos' w' c'' = (c'', Ok (obj', pos'))).
Proof.
  intros Hpos Hrun.
  pose proof (cursor_loop_array_loop walk isQuery (drop pos obj) (take pos obj) w c) as H.
  rewrite take_drop, length_drop, length_take_le in H by exact Hpos.
  rewrite Hrun in H.
  destruct (array_loop walk isQuery (take pos obj) (drop pos obj) w c)
    as [c1 [l|e]] eqn:E; [|discriminate H].
  injection H as _ -> ->.
  apply array_loop_prefix in E as [suffix ->].
  split; [reflexivity|]. split.
  - rewrite take_app_length'; [reflexivity|]. now rewrite length_take_le.
  - intros n w' c''. destruct n as [|n]; [reflexivity|].
    cbn [cursor_loop]. now rewrite Nat.ltb_irrefl.
Qed.
End ArrayLoopFacts.

Lemma cursor_loop_completes_witness :
  let ctx := JObj [("bool", JObj [("must", JArr [JStr "a"; JStr "b"; JStr "c"])])] in
  let w := mkWorld (mkBounds 1000 9000) ctx in
  let obj := [JStr "x"; JStr MUST_NOT_CLAUSE; JStr MUST_CLAUSE] in
  exists c' obj' pos',
    cursor_loop (fun v => ret v) true 2 obj 1 w None = (c', Ok (obj', pos')) /\
    pos' = length obj' /\ take 1 obj' = [JStr "x"].
Proof.
  intros ctx w obj.
  destruct (cursor_loop (fun v => ret v) true 2 obj 1 w None) as [c' [[obj' pos']|e]] eqn:E.
  - assert (Hpos : 1 <= length obj) by (cbn; lia).
    destruct (cursor_loop_completes (fun v => ret v) true obj 1 w None c' obj' pos' Hpos E)
      as (Hend & Htake & _).
    exists c', obj', pos'. auto.
  - exfalso. vm_compute in E. discriminate E.
Defined.

(** X11: the walk of a sequence goes element by element, left to right,
    and never looks back: walking [l1 ++ l2] is walking [l1], then [l2]
    with the cache as the first walk left it, and putting the results one
    after the other; an error of the first part comes first. *)
Theorem injectQueryContextVars_app (l1 l2 : list value) (isQuery : bool) (w : World) (c : Cache) :
  injectQueryContextVars (JArr (l1 ++ l2)) isQuery w c =
    match injectQueryContextVars (JArr l1) isQuery w c with
    | (c1, Ok r1) =>
        match injectQueryContextVars (JArr l2) isQuery w c1 with
        | (c2, Ok r2) => (c2, Ok (JArr (elements r1 ++ elements r2)))
        | (c2, Err e) => (c2, Err e)
        end
    | (c1, Err e) => (c1, Err e)
    end.
Proof.
  rewrite !injectQueryContextVars_arr. unfold bind.
  rewrite array_loop_app.
  destruct (array_loop _ isQuery [] l1 w c) as [c1 [d|e]]; [|reflexivity].
  cbn [ret elements]. rewrite array_loop_done.
  destruct (array_loop _ isQuery [] l2 w c1) as [c2 [l|e]]; reflexivity.
Qed.

(** ** Nesting *)

(** A mapping with one property whose value carries no magic key: the walk
    goes into the value. *)
Lemma injectQueryContextVars_single k sub isQuery w c :
  get sub TIMEFILTER = JUndefined ->
  get sub AUTOINTERVAL = JUndefined ->
  injectQueryContextVars (JObj [(k, sub)]) isQuery w c =
    match injectQueryContextVars sub isQuery w c with
    | (c', Ok sub') => (c', Ok (JObj [(k, sub')]))
    | (c', Err e) => (c', Err e)
    end.
Proof.
  intros Htf Hauto. rewrite injectQueryContextVars_obj.
  cbn [props_loop]. unfold bind, walk_prop.
  cbn [typeof String.eqb Ascii.eqb Bool.eqb negb]. rewrite orb_false_r.
  rewrite Htf, Hauto. cbn [truthy]. rewrite andb_false_r.
  destruct (truthy sub) eqn:Ht; cbn [negb].
  - destruct (injectQueryContextVars sub isQuery w c) as [c' [sub'|e]]; reflexivity.
  - destruct sub as [| |[|]|n|s| |]; try discriminate Ht; reflexivity.
Qed.

Lemma nest_no_magic path v k :
  forallb (fun p => negb (is_marker_key p)) path = true ->
  is_marker_key k = true ->
  get v k = JUndefined ->
  get (nest path v) k = JUndefined.
Proof.
  intros Hpath Hk Hv. destruct path as [|p path]; [exact Hv|].
  cbn [nest fold_right forallb] in *.
  apply andb_true_iff in Hpath as [Hp _]. apply negb_true_iff in Hp.
  unfold get. cbn [props_of Obj.lookup].
  destruct (String.eqb k p) eqn:E; [|reflexivity].
  apply String.eqb_eq in E. subst p. rewrite Hk in Hp. discriminate Hp.
Qed.

(** X12: placeholders are resolved at any depth: under a chain of keys
    none of which is a magic key, the walk of the nested document is the
    walk of the document at the bottom of the chain, put back under the
    same keys; errors and the cache come out the same. *)
Theorem injectQueryContextVars_nest (path : list string) (v : value) (isQuery : bool)
  (w : World) (c : Cache) :
  forallb (fun p => negb (is_marker_key p)) path = true ->
  get v TIMEFILTER = JUndefined ->
  get v AUTOINTERVAL = JUndefined ->
  injectQueryContextVars (nest path v) isQuery w c =
    match injectQueryContextVars v isQuery w c with
    | (c', Ok v') => (c', Ok (nest path v'))
    | (c', Err e) => (c', Err e)
    end.
Proof.
  intros Hpath Htf Hauto. induction path as [|p path IH].
  - cbn [nest fold_right].
    destruct (injectQueryContextVars v isQuery w c) as [c' [v'|e]]; reflexivity.
  - pose proof Hpath as Hall. cbn [forallb] in Hpath.
    apply andb_true_iff in Hpath as [_ Hpath].
    change (nest (p :: path) v) with (JObj [(p, nest path v)]).
    rewrite injectQueryContextVars_single.
    + rewrite (IH Hpath).
      destruct (injectQueryContextVars v isQuery w c) as [c' [v'|e]]; reflexivity.
    + now apply nest_no_magic.
    + now apply nest_no_magic.
Qed.

Lemma injectQueryContextVars_nest_witness :
  let w := mkWorld (mkBounds 1000 9000) JNull in
  let v := JObj [("gte", JObj [(TIMEFILTER, JStr "min")])] in
  injectQueryContextVars (nest ["bool"; "filter"; "range"; "@timestamp"] v) true w None =
    (Some (mkBounds 1000 9000),
     Ok (nest ["bool"; "filter"; "range"; "@timestamp"] (JObj [("gte", JNum 1000)]))).
Proof.
  intros w v.
  rewrite (injectQueryContextVars_nest ["bool"; "filter"; "range"; "@timestamp"] v true w None
             eq_refl eq_refl eq_refl).
  reflexivity.
Defined.

(** ** Context fragments are inserted as they are *)

(** X13: a clause marker is replaced by what the dashboard context holds,
    verbatim: the walk of the one-element sequence that holds the marker
    gives the elements of the matching [bool] field (all of a sequence, a
    single truthy fragment, or nothing), none of them walked, and the
    cache is untouched. *)
Theorem injectQueryContextVars_clause_marker (marker ctxTag : string) (w : World) (c : Cache) :
  In (marker, ctxTag) [(MUST_CLAUSE, "must"); (MUST_NOT_CLAUSE, "must_not")] ->
  injectQueryContextVars (JArr [JStr marker]) true w c =
    (c, Ok (JArr (clause_elements (dashboardContext w) ctxTag))).
Proof.
  intros Hm.
  assert (H : is_clause_marker (JStr marker) = true /\ ctxTag_of (JStr marker) = ctxTag).
  { destruct Hm as [[= <- <-]|[[= <- <-]|[]]]; split; reflexivity. }
  destruct H as [Hmark Htag].
  rewrite injectQueryContextVars_arr. cbn [array_loop]. rewrite Hmark, Htag.
  cbn [andb]. unfold bind, ask_dashboardContext, clause_elements.
  rewrite has_clause_truthy.
  destruct (get (get (dashboardContext w) "bool") ctxTag) as [| |[|]|n|s|els|o];
    cbn [truthy]; try reflexivity.
  - destruct (negb (Qeq_bool n 0)); reflexivity.
  - destruct (negb (String.eqb s "")); reflexivity.
Qed.

Lemma injectQueryContextVars_clause_marker_witness :
  let nested := JObj [("range", JObj [("t", JObj [(TIMEFILTER, JBool true)])])] in
  let w := mkWorld (mkBounds 1000 9000) (JObj [("bool", JObj [("must_not", nested)])]) in
  injectQueryContextVars (JArr [JStr MUST_NOT_CLAUSE]) true w None =
    (None, Ok (JArr [nested])).
Proof.
  intros nested w.
  apply (injectQueryContextVars_clause_marker MUST_NOT_CLAUSE "must_not" w None).
  right. left. reflexivity.
Defined.

(** ** [queryEsData]: what it leaves alone *)

Lemma queryEsData_no_marker uri w c :
  let body := js_or (Obj.lookup "body" uri) (JObj []) in
  truthy (Obj.lookup SIMPLE_QUERY uri) = false ->
  queryEsData (JObj uri) w c =
    (query <- injectQueryContextVars (get body "query") true ;;
     resolve_aggs_and_search (Obj.assign "body" body uri) (mutated_at body "query" query)) w c.
Proof.
  intros body Hm. unfold queryEsData. fold body.
  rewrite ObjFacts.lookup_assign_ne by discriminate. rewrite Hm.
  unfold bind, resolve_aggs_and_search.
  destruct (injectQueryContextVars (get body "query") true w c) as [c1 [query|e]];
    reflexivity.
Qed.

Lemma resolve_aggs_and_search_frame uri body w c request :
  snd (resolve_aggs_and_search uri body w c) = Ok (EsSearch request) ->
  (forall k, k <> "body" -> get request k = Obj.lookup k uri) /\
  (forall k, k <> "aggs" -> get (get request "body") k = get body k).
Proof.
  unfold resolve_aggs_and_search, bind.
  destruct (injectQueryContextVars (get body "aggs") false w c) as [c' [aggs|e]];
    [|discriminate].
  cbn [ret snd]. intros [= <-]. split.
  - intros k Hk. unfold get. cbn [props_of]. now apply ObjFacts.lookup_assign_ne.
  - intros k Hk. rewrite get_assign_eq. now apply get_mutated_at_ne.
Qed.

(** X14: [queryEsData] rewrites [body.query] and [body.aggs] and removes a
    truthy [%context_query%]; nothing else: in the request handed to the
    search collaborator every other property of the envelope and every
    other property of [body] is as it came, and a falsy marker stays. *)
Theorem queryEsData_frame (uri : jobject) (w : World) (c : Cache) (request : value) :
  snd (queryEsData (JObj uri) w c) = Ok (EsSearch request) ->
  let body := js_or (Obj.lookup "body" uri) (JObj []) in
  (forall k, k <> "body" -> k <> SIMPLE_QUERY -> get request k = Obj.lookup k uri) /\
  (forall k, k <> "query" -> k <> "aggs" -> get (get request "body") k = get body k) /\
  (truthy (Obj.lookup SIMPLE_QUERY uri) = false ->
   get request SIMPLE_QUERY = Obj.lookup SIMPLE_QUERY uri).
Proof.
  intros Hrun body.
  assert (Henv : forall k b, k <> "body" -> k <> SIMPLE_QUERY ->
                   Obj.lookup k (Obj.delete SIMPLE_QUERY (Obj.assign "body" b uri)) =
                   Obj.lookup k uri).
  { intros k b H1 H2.
    now rewrite ObjFacts.lookup_delete_ne, ObjFacts.lookup_assign_ne. }
  destruct (truthy (Obj.lookup SIMPLE_QUERY uri)) eqn:Hm.
  - destruct (truthy (get body "query")) eqn:Hq.
    { rewrite (queryEsData_conflict uri w c Hm Hq) in Hrun. discriminate Hrun. }
    destruct (invalid_field (Obj.lookup SIMPLE_QUERY uri)) eqn:Hf.
    { rewrite (queryEsData_invalid_field uri w c Hm Hq Hf) in Hrun. discriminate Hrun. }
    apply invalid_field_spec in Hf as [Hf|(field & Hf & Hne)].
    + rewrite (queryEsData_context_true uri w c Hq Hf) in Hrun.
      unfold bind in Hrun. fold body in Hrun.
      destruct body as [| | | | | |props]; try discriminate Hrun.
      cbn [setprop ret] in Hrun.
      apply resolve_aggs_and_search_frame in Hrun as [Hu Hb].
      split; [|split; [|discriminate]].
      * intros k H1 H2. rewrite (Hu k H1). now apply Henv.
      * intros k H1 H2. rewrite (Hb k H2). unfold get. cbn [props_of].
        now apply ObjFacts.lookup_assign_ne.
    + rewrite (queryEsData_context_field uri w c field Hq Hf Hne) in Hrun.
      fold body in Hrun.
      destruct body as [| | | | | |props]; try discriminate Hrun.
      destruct (get (get (dashboardContext w) "bool") "must") as [| | | | |els|];
        try discriminate Hrun.
      cbv zeta in Hrun.
      apply resolve_aggs_and_search_frame in Hrun as [Hu Hb].
      split; [|split; [|discriminate]].
      * intros k H1 H2. rewrite (Hu k H1). now apply Henv.
      * intros k H1 H2. rewrite (Hb k H2). unfold get. cbn [props_of].
        now apply ObjFacts.lookup_assign_ne.
  - rewrite (queryEsData_no_marker uri w c Hm) in Hrun.
    unfold bind in Hrun. fold body in Hrun.
    destruct (injectQueryContextVars (get body "query") true w c) as [c1 [query|e]];
      [|discriminate Hrun].
    apply resolve_aggs_and_search_frame in Hrun as [Hu Hb].
    split; [|split].
    + intros k H1 H2. rewrite (Hu k H1). now apply ObjFacts.lookup_assign_ne.
    + intros k H1 H2. rewrite (Hb k H2). now apply get_mutated_at_ne.
    + intros _. rewrite Hu by discriminate. now apply ObjFacts.lookup_assign_ne.
Qed.

Lemma queryEsData_frame_witness :
  let uri := [("index", JStr "logs-*"); (SIMPLE_QUERY, JBool true);
              ("body", JObj [("size", JNum 0)])] in
  let w := mkWorld (mkBounds 1000 9000) (JObj [("bool", JObj [("must", JArr [])])]) in
  exists request,
    snd (queryEsData (JObj uri) w None) = Ok (EsSearch request) /\
    get request "index" = JStr "logs-*" /\
    get (get request "body") "size" = JNum 0.
Proof.
  intros uri w.
  destruct (snd (queryEsData (JObj uri) w None)) as [[request|u o]|e] eqn:E.
  - destruct (queryEsData_frame uri w None request E) as (Hu & Hb & _).
    exists request. split; [reflexivity|]. split.
    + now rewrite Hu.
    + now rewrite Hb.
  - exfalso. vm_compute in E. discriminate E.
  - exfalso. vm_compute in E. discriminate E.
Defined.

Lemma assign_lookup_same k o : Obj.has k o = true -> Obj.assign k (Obj.lookup k o) o = o.
Proof.
  induction o as [|[k0 v0] o IH]; cbn; [discriminate|].
  destruct (String.eqb k k0) eqn:E; cbn; [reflexivity|].
  intros H. now rewrite IH.
Qed.

Lemma mutated_at_get o k : mutated_at o k (get o k) = o.
Proof.
  destruct o; try reflexivity. cbn [mutated_at].
  destruct (Obj.has k props) eqn:E; [|reflexivity].
  unfold get. cbn [props_of]. now rewrite assign_lookup_same.
Qed.

(** X15: a request without [%context_query%] (or with a falsy one) whose
    [body.query] and [body.aggs] carry no placeholder marker goes to the
    search collaborator as it came, with the cache untouched; the one
    change is that a missing or falsy [body] has become [{}]. *)
Theorem queryEsData_plain_request (uri : jobject) (w : World) (c : Cache) :
  let body := js_or (Obj.lookup "body" uri) (JObj []) in
  truthy (Obj.lookup SIMPLE_QUERY uri) = false ->
  marker_free (get body "query") = true ->
  marker_free (get body "aggs") = true ->
  queryEsData (JObj uri) w c = (c, Ok (EsSearch (JObj (Obj.assign "body" body uri)))) /\
  (truthy (Obj.lookup "body" uri) = true -> Obj.assign "body" body uri = uri).
Proof.
  intros body Hm Hq Ha. split.
  - rewrite (queryEsData_no_marker uri w c Hm). fold body.
    unfold bind. rewrite (injectQueryContextVars_marker_free _ Hq).
    unfold resolve_aggs_and_search, bind.
    rewrite mutated_at_get, (injectQueryContextVars_marker_free _ Ha).
    cbn [ret]. now rewrite mutated_at_get, assign_assign.
  - intros Hb. unfold body, js_or. rewrite Hb.
    apply assign_lookup_same, lookup_defined_has.
    intros E. rewrite E in Hb. discriminate Hb.
Qed.

Lemma queryEsData_plain_request_witness :
  let uri := [("index", JStr "logs-*");
              ("body", JObj [("query", JObj [("match_all", JObj [])]); ("size", JNum 0)])] in
  let w := mkWorld (mkBounds 1000 9000) JNull in
  queryEsData (JObj uri) w None = (None, Ok (EsSearch (JObj uri))).
Proof.
  intros uri w.
  destruct (queryEsData_plain_request uri w None eq_refl eq_refl eq_refl) as [H1 H2].
  rewrite H1. now rewrite (H2 eq_refl).
Defined.

(** ** [queryEsData] without the marker *)

(** X16: without a truthy [%context_query%], [queryEsData] can only fail
    the way the tree walker fails: with one of the four validation errors
    of the placeholders, never with [ConflictingQuery],
    [InvalidContextQueryField] or a [TypeError]. *)
Theorem queryEsData_no_marker_raises (uri : jobject) (w : World) (c : Cache) (e : error) :
  truthy (Obj.lookup SIMPLE_QUERY uri) = false ->
  snd (queryEsData (JObj uri) w c) = Err e ->
  e = InvalidShift \/ e = UnknownUnit \/ e = InvalidAutoInterval \/
  e = InvalidTimefilterValue.
Proof.
  intros Hm. rewrite (queryEsData_no_marker uri w c Hm).
  assert (Hs : sound walker_error
                 (query <- injectQueryContextVars
                             (get (js_or (Obj.lookup "body" uri) (JObj [])) "query") true ;;
                  resolve_aggs_and_search
                    (Obj.assign "body" (js_or (Obj.lookup "body" uri) (JObj [])) uri)
                    (mutated_at (js_or (Obj.lookup "body" uri) (JObj [])) "query" query))).
  { apply sound_bind; [apply sound_injectQueryContextVars|]. intros query.
    unfold resolve_aggs_and_search.
    apply sound_bind; [apply sound_injectQueryContextVars | intros; apply sound_ret]. }
  intros H. destruct (Hs w c) as (_ & He & _). apply He in H.
  destruct e; try discriminate H; auto.
Qed.

Lemma queryEsData_no_marker_raises_witness :
  let uri := [("body", JObj [("aggs", JObj [("h", JObj [("interval", JObj [(AUTOINTERVAL, JStr "many")])])])])] in
  let w := mkWorld (mkBounds 1000 9000) JNull in
  exists e,
    snd (queryEsData (JObj uri) w None) = Err e /\
    (e = InvalidShift \/ e = UnknownUnit \/ e = InvalidAutoInterval \/
     e = InvalidTimefilterValue).
Proof.
  intros uri w. exists InvalidAutoInterval. split; [reflexivity|].
  apply (queryEsData_no_marker_raises uri w None); reflexivity.
Defined.

(** ** [loader.load]: the external-URL switch and its edges *)

(** X17: with external URLs disabled [load] never reaches the default
    loader, whatever it is given: anything that is no object fails with
    [ExternalUrlsDisabled] (the options are not even read); and for an
    object the switch plays no part. *)
Theorem load_external_disabled (uri opts : value) (w : World) (c : Cache) :
  (typeof uri <> "object" -> load false uri opts w c = (c, Err ExternalUrlsDisabled)) /\
  (forall uri' opts', snd (load false uri opts w c) <> Ok (DefaultLoad uri' opts')) /\
  (typeof uri = "object" ->
   forall enableExternalUrls,
     load enableExternalUrls uri opts w c = load false uri opts w c).
Proof.
  split; [|split].
  - intros H. unfold load. apply String.eqb_neq in H. now rewrite H.
  - intros uri' opts'. unfold load.
    destruct (String.eqb (typeof uri) "object"); [|discriminate].
    unfold bind. destruct (getprop opts "context" w c) as [c1 [context|e]]; [|discriminate].
    destruct (strict_eq_str context "dataflow"); [|discriminate].
    intros H. apply queryEsData_searches in H as [request H]. discriminate H.
  - intros H e. unfold load. now rewrite H.
Qed.

Lemma load_external_disabled_witness :
  load false (JStr "https://example.org/data.csv") JUndefined
    (mkWorld (mkBounds 1000 9000) JNull) None = (None, Err ExternalUrlsDisabled).
Proof.
  apply (proj1 (load_external_disabled (JStr "https://example.org/data.csv") JUndefined
                  (mkWorld (mkBounds 1000 9000) JNull) None)).
  discriminate.
Defined.

(** X18: the edges of [load] on objects.  [typeof null] is ["object"], so
    [null] is taken for a request: it never loads, ending in a [TypeError]
    or in [UnexpectedUrlObject]; and for any object, options that are
    [undefined] or [null] end in a [TypeError], before the context is
    looked at.  The cache is untouched in both cases. *)
Theorem load_object_edges (enableExternalUrls : bool) (uri opts : value) (w : World) (c : Cache) :
  (typeof uri = "object" -> opts = JUndefined \/ opts = JNull ->
   load enableExternalUrls uri opts w c = (c, Err TypeError)) /\
  (uri = JNull ->
   load enableExternalUrls uri opts w c = (c, Err TypeError) \/
   load enableExternalUrls uri opts w c = (c, Err UnexpectedUrlObject)).
Proof.
  split.
  - intros Hobj Hopts. unfold load. rewrite Hobj.
    destruct Hopts as [-> | ->]; reflexivity.
  - intros ->. unfold load. cbn [typeof String.eqb Ascii.eqb Bool.eqb].
    unfold bind. destruct opts; cbn [getprop throw ret]; auto;
      destruct (strict_eq_str _ _); auto.
Qed.

Lemma load_object_edges_witness :
  load true (JObj [("index", JStr "logs-*")]) JUndefined
    (mkWorld (mkBounds 1000 9000) JNull) None = (None, Err TypeError).
Proof.
  apply (proj1 (load_object_edges true (JObj [("index", JStr "logs-*")]) JUndefined
                  (mkWorld (mkBounds 1000 9000) JNull) None)).
  - reflexivity.
  - now left.
Defined.
